(** * ElyBot attendance tracker: a shallow embedding of [server.js]

    The development follows the layout of the source file: the date helpers
    built on dayjs ([monthBounds], [lastMonthYM]), the SQLite store with its
    three tables and prepared statements, the sampling cycle
    ([sampleVoiceChannel]), the attendance queries ([computeAttendance]),
    the report ([summaryPayload]) and the two HTTP handlers.

    Conventions
    - JavaScript strings are modelled by [string] (ASCII text).
    - Integer JavaScript numbers (timestamps, counts, row ids) are [Z].
    - A quotient [present / total] of two counts is kept exact, as a [Q];
      the comparisons the program performs on it ([< 0.5], [< 0.75], the sign
      of a difference of two such quotients) have the same outcome on the
      exact quotient as on its IEEE double rounding for every count below
      2^51, since 0.5 and 0.75 are representable and rounding is monotone.
    - [null] and [undefined] are [None]. *)

From Stdlib Require Import ZArith QArith String Ascii List Lia DecimalString.
From stdpp Require Import base list strings sorting gmap.

Open Scope Z_scope.

(** ** JavaScript string helpers *)

Module JS.

(** [String(n)] for an integer number. *)
Definition toString (n : Z) : string := NilZero.string_of_int (Z.to_int n).

Fixpoint zeros (n : nat) : string :=
  match n with
  | O => EmptyString
  | S n' => String "0" (zeros n')
  end.

(** [s.padStart(n, '0')] *)
Definition padStart0 (s : string) (n : nat) : string :=
  zeros (n - String.length s) +:+ s.

(** White space removed by [String.prototype.trim], ASCII part:
    TAB, LF, VT, FF, CR and SPACE. *)
Definition isSpace (c : ascii) : bool :=
  let n := nat_of_ascii c in
  ((9 <=? n)%nat && (n <=? 13)%nat) || (n =? 32)%nat.

Fixpoint trimStart (s : string) : string :=
  match s with
  | EmptyString => EmptyString
  | String c s' => if isSpace c then trimStart s' else s
  end.

Fixpoint trimEnd (s : string) : string :=
  match s with
  | EmptyString => EmptyString
  | String c s' =>
      match trimEnd s' with
      | EmptyString => if isSpace c then EmptyString else String c EmptyString
      | r => String c r
      end
  end.

Definition trim (s : string) : string := trimEnd (trimStart s).

(** Truthiness of a string value that may be [undefined]. *)
Definition truthy (o : option string) : bool :=
  match o with
  | Some s => negb (String.eqb s EmptyString)
  | None => false
  end.

(** [a || b] on possibly undefined strings, with a defined fallback. *)
Definition orElse (o : option string) (d : string) : string :=
  match o with
  | Some s => if String.eqb s EmptyString then d else s
  | None => d
  end.

Definition isDigit (c : ascii) : bool :=
  let n := nat_of_ascii c in (48 <=? n)%nat && (n <=? 57)%nat.

Definition digit (c : ascii) : Z := Z.of_nat (nat_of_ascii c) - 48.

(** [Number(s)] on a run of decimal digits. *)
Definition number (cs : list ascii) : Z :=
  fold_left (fun acc c => 10 * acc + digit c) cs 0.

End JS.

(** ** dayjs

    dayjs is a dependency of the program, not part of it.  The model keeps
    of a dayjs object what the program reads from it: whether the wrapped
    [Date] is valid and, if so, its local calendar date.  The host side of
    the library (the time zone, the clock, and the parsing of strings that
    are not plain dates) is a parameter of the development. *)

Record LocalDate := mkDate {
  d_y : Z;   (* $y, the full year *)
  d_M : Z;   (* $M, the month index, 0 to 11 *)
  d_D : Z    (* $D, the day of the month *)
}.

Inductive Dayjs :=
| InvalidDate
| DateOf (d : LocalDate).

Module Calendar.

Definition isLeap (y : Z) : bool :=
  ((y mod 4 =? 0) && negb (y mod 100 =? 0)) || (y mod 400 =? 0).

(** Days of month index [m] (0 to 11) in year [y]. *)
Definition daysInMonth (y m : Z) : Z :=
  if m =? 1 then (if isLeap y then 29 else 28)
  else if (m =? 3) || (m =? 5) || (m =? 8) || (m =? 10) then 30
  else 31.

(** The year argument of the [Date] constructor: a value from 0 to 99
    stands for 1900 to 1999 (ECMAScript, Date constructor, step
    "if 0 <= y <= 99 then yr = 1900 + y"). *)
Definition fullYear (y : Z) : Z :=
  if (0 <=? y) && (y <=? 99) then 1900 + y else y.

(** [new Date(y, m, 1)] read back in local time: the month index is
    carried into the year (ECMAScript MakeDay). *)
Definition newDate (y m : Z) : LocalDate :=
  mkDate (fullYear y + m / 12) (m mod 12) 1.

(** [date.setMonth(m)] on a date whose day is 1, read back. *)
Definition setMonth (d : LocalDate) (m : Z) : LocalDate :=
  mkDate (d_y d + m / 12) (m mod 12) 1.

End Calendar.

Section Host.

(** What dayjs answers on a string outside the ten-character form
    [dddd-dd-01]: the other alternatives of its parsing expression and the
    engine's own [Date] parser, both dependent on version and engine. *)
Variable parseRest : string -> Dayjs.

(** [valueOf()] of the local date and time of day (in milliseconds since
    local midnight): the host's time zone rules. *)
Variable toEpochMs : LocalDate -> Z -> Z.

(** [dayjs()], the local date of the clock at the time of the call. *)
Variable today : LocalDate.

(** [dayjs(s)] for a string: dayjs matches
    [/^(\d{4})[-/]?(\d{1,2})?[-/]?(\d{0,2})...$/] and calls
    [new Date(d[1], d[2] - 1 || 0, d[3] || 1, 0, 0, 0, 0)]. *)
Definition dayjs (s : string) : Dayjs :=
  match list_ascii_of_string s with
  | [y1; y2; y3; y4; "-"%char; m1; m2; "-"%char; "0"%char; "1"%char] =>
      if forallb JS.isDigit [y1; y2; y3; y4; m1; m2]
      then DateOf (Calendar.newDate (JS.number [y1; y2; y3; y4])
                                    (JS.number [m1; m2] - 1))
      else parseRest s
  | _ => parseRest s
  end.

(** [ym ? dayjs(ym + '-01') : dayjs()] *)
Definition baseOf (ym : option string) : Dayjs :=
  match ym with
  | Some s => if JS.truthy ym then dayjs (s +:+ "-01") else DateOf today
  | None => DateOf today
  end.

(** [.subtract(1, 'month')]: dayjs sets the day to 1, calls
    [setMonth($M - 1)] and restores the day, capped by the month length. *)
Definition subtractMonth (b : Dayjs) : Dayjs :=
  match b with
  | InvalidDate => InvalidDate
  | DateOf d =>
      let d1 := Calendar.setMonth d (d_M d - 1) in
      DateOf (mkDate (d_y d1) (d_M d1)
                     (Z.min (d_D d) (Calendar.daysInMonth (d_y d1) (d_M d1))))
  end.

(** [.format('YYYY-MM')] *)
Definition formatYM (b : Dayjs) : string :=
  match b with
  | InvalidDate => "Invalid Date"
  | DateOf d =>
      JS.padStart0 (JS.toString (d_y d)) 4 +:+ "-" +:+
      JS.padStart0 (JS.toString (d_M d + 1)) 2
  end.

(** [.startOf('month').valueOf()] and [.endOf('month').valueOf()];
    [None] is NaN. *)
Definition startOfMonthMs (b : Dayjs) : option Z :=
  match b with
  | InvalidDate => None
  | DateOf d => Some (toEpochMs (mkDate (d_y d) (d_M d) 1) 0)
  end.

Definition endOfMonthMs (b : Dayjs) : option Z :=
  match b with
  | InvalidDate => None
  | DateOf d =>
      Some (toEpochMs
              (mkDate (d_y d) (d_M d) (Calendar.daysInMonth (d_y d) (d_M d)))
              86399999)
  end.

Record Bounds := mkBounds { startMs : option Z; endMs : option Z }.

Definition monthBounds (ym : option string) : Bounds :=
  let base := baseOf ym in
  mkBounds (startOfMonthMs base) (endOfMonthMs base).

Definition lastMonthYM (ym : option string) : string :=
  formatYM (subtractMonth (baseOf ym)).

End Host.

(** The text [YYYY-MM] of year [y] and month [m] (1 to 12). *)
Definition ymString (y m : Z) : string :=
  JS.padStart0 (JS.toString y) 4 +:+ "-" +:+ JS.padStart0 (JS.toString m) 2.

(** The month before month [m] of year [y]. *)
Definition monthBefore (y m : Z) : Z * Z :=
  if m =? 1 then (y - 1, 12) else (y, m - 1).

(** ** The SQLite store

    Tables are lists of rows in rowid order, which is the order a full scan
    returns them in. *)

Record MemberRow := mkMember {
  user_id : string;        (* TEXT PRIMARY KEY *)
  display_name : string;
  role : string;           (* 'Raider' | 'Reserve' *)
  first_seen : Z;
  last_seen : Z
}.

Record SnapshotRow := mkSnapshot {
  snap_id : Z;             (* INTEGER PRIMARY KEY AUTOINCREMENT *)
  ts : Z;                  (* Unix millis *)
  guild_id : string;
  channel_id : string
}.

Record PresenceRow := mkPresence {
  snapshot_id : Z;
  p_user_id : string       (* PRIMARY KEY (snapshot_id, user_id) *)
}.

Record Store := mkStore {
  members : list MemberRow;
  snapshots : list SnapshotRow;
  presence : list PresenceRow;
  snapshots_seq : Z        (* sqlite_sequence entry of [snapshots] *)
}.

Definition emptyStore : Store := mkStore [] [] [] 0.

#[global] Instance MemberRow_eq_dec : EqDecision MemberRow.
Proof. solve_decision. Defined.

#[global] Instance SnapshotRow_eq_dec : EqDecision SnapshotRow.
Proof. solve_decision. Defined.

#[global] Instance PresenceRow_eq_dec : EqDecision PresenceRow.
Proof. solve_decision. Defined.

#[global] Instance Store_eq_dec : EqDecision Store.
Proof. solve_decision. Defined.

Inductive SqlError :=
| StorageFailure      (* the engine could not complete the write *)
| ConstraintFailed.   (* a PRIMARY KEY or FOREIGN KEY constraint *)

Module Sql.

Definition maxRowid (l : list SnapshotRow) : Z :=
  fold_right Z.max 0 (List.map snap_id l).

Definition hasMember (uid : string) (db : Store) : bool :=
  existsb (fun m => String.eqb (user_id m) uid) (members db).

Definition hasSnapshot (sid : Z) (db : Store) : bool :=
  existsb (fun s => snap_id s =? sid) (snapshots db).

Definition samePresence (sid : Z) (uid : string) (p : PresenceRow) : bool :=
  (snapshot_id p =? sid) && String.eqb (p_user_id p) uid.

Definition hasPresence (sid : Z) (uid : string) (db : Store) : bool :=
  existsb (samePresence sid uid) (presence db).

(** [INSERT INTO snapshots (ts, guild_id, channel_id) VALUES (?, ?, ?)];
    the result is [lastInsertRowid].  AUTOINCREMENT takes one more than the
    largest rowid the table ever held. *)
Definition insertSnapshot (t : Z) (g c : string) (db : Store)
  : SqlError + (Z * Store) :=
  let sid := Z.max (snapshots_seq db) (maxRowid (snapshots db)) + 1 in
  inr (sid, mkStore (members db)
                    (snapshots db ++ [mkSnapshot sid t g c])
                    (presence db)
                    sid).

(** [INSERT OR IGNORE INTO presence (snapshot_id, user_id) VALUES (?, ?)]:
    a row with the same key is left alone and nothing is raised; the
    foreign key to [snapshots] is still enforced. *)
Definition insertPresence (sid : Z) (uid : string) (db : Store)
  : SqlError + (unit * Store) :=
  if hasPresence sid uid db then inr (tt, db)
  else if hasSnapshot sid db then
    inr (tt, mkStore (members db) (snapshots db)
                     (presence db ++ [mkPresence sid uid])
                     (snapshots_seq db))
  else inl ConstraintFailed.

(** The [DO UPDATE SET display_name=excluded.display_name,
    last_seen=excluded.last_seen] of the upsert. *)
Definition touch (name : string) (t : Z) (m : MemberRow) : MemberRow :=
  mkMember (user_id m) name (role m) (first_seen m) t.

(** [INSERT INTO members ... VALUES (@user_id, @display_name,
    COALESCE(@role,'Raider'), @ts, @ts) ON CONFLICT(user_id) DO UPDATE ...] *)
Definition upsertMember (uid name : string) (r : option string) (t : Z)
    (db : Store) : SqlError + (unit * Store) :=
  let ms :=
    if hasMember uid db
    then List.map (fun m => if String.eqb (user_id m) uid
                            then touch name t m else m) (members db)
    else members db ++ [mkMember uid name (default "Raider"%string r) t t] in
  inr (tt, mkStore ms (snapshots db) (presence db) (snapshots_seq db)).

(** [UPDATE members SET role=? WHERE user_id=?] *)
Definition updateRole (r uid : string) (db : Store) : Store :=
  mkStore (List.map (fun m => if String.eqb (user_id m) uid
                              then mkMember (user_id m) (display_name m) r
                                            (first_seen m) (last_seen m)
                              else m) (members db))
          (snapshots db) (presence db) (snapshots_seq db).

(** [BEGIN] and [COMMIT] change no table. *)
Definition noop (db : Store) : SqlError + (unit * Store) := inr (tt, db).

End Sql.

(** ** Statements inside a transaction

    A transaction function runs its statements one after the other on the
    connection's uncommitted view of the store.  Every statement may be
    refused by the engine (disk full, I/O error, lock): the oracle [fault]
    tells for the [k]-th statement of the unit whether it is.  A refused or
    failed statement throws and the rest of the function is skipped. *)

Inductive Outcome (A : Type) :=
| Done (a : A) (k : nat) (db : Store)
| Thrown (e : SqlError).

Arguments Done {A} a k db.
Arguments Thrown {A} e.

Definition Tx (A : Type) : Type := (nat -> bool) -> nat -> Store -> Outcome A.

Definition ret {A} (a : A) : Tx A := fun _ k db => Done a k db.

Definition bind {A B} (m : Tx A) (f : A -> Tx B) : Tx B :=
  fun fault k db =>
    match m fault k db with
    | Done a k' db' => f a fault k' db'
    | Thrown e => Thrown e
    end.

Declare Scope tx_scope.
Delimit Scope tx_scope with tx.
Notation "x <- m ;; f" := (bind m (fun x => f))
  (at level 20, m at level 99, f at level 200, only parsing) : tx_scope.
Notation "m ;; f" := (bind m (fun _ => f))
  (at level 100, f at level 200, only parsing, right associativity) : tx_scope.

(** [stmt.run(...)] *)
Definition run {A} (stmt : Store -> SqlError + (A * Store)) : Tx A :=
  fun fault k db =>
    if fault k then Thrown StorageFailure
    else match stmt db with
         | inl e => Thrown e
         | inr (a, db') => Done a (S k) db'
         end.

(** [for (const x of xs) body(x)] *)
Fixpoint forEach {A} (xs : list A) (body : A -> Tx unit) : Tx unit :=
  match xs with
  | [] => ret tt
  | x :: xs' => (body x ;; forEach xs' body)%tx
  end.

(** [db.transaction(fn)()], as better-sqlite3 documents it: BEGIN, the
    function, COMMIT; when anything throws the transaction is rolled back
    and the exception is thrown on.  The store returned is the committed
    one, the only one another reader of the database can see. *)
Definition db_transaction {A} (fn : Tx A) (fault : nat -> bool) (db : Store)
  : (SqlError + A) * Store :=
  match (run Sql.noop ;; a <- fn ;; run Sql.noop ;; ret a)%tx fault 0%nat db with
  | Done a _ db' => (inr a, db')
  | Thrown e => (inl e, db)
  end.

(** ** The sampling cycle *)

Record GuildMember := mkGuildMember {
  gm_user_id : string;       (* gm.user.id *)
  gm_displayName : string;   (* gm.displayName, empty when missing *)
  gm_username : string       (* gm.user.username, empty when missing *)
}.

(** What the two [fetch] calls and the voice check give. *)
Inductive Fetched :=
| FetchThrows
| NotVoice
| Voice (channel_members : list GuildMember).

(** What the cycle writes to the console. *)
Inductive Log :=
| LogWarn                    (* not a voice channel or not found *)
| LogSaved (present : nat)   (* Snapshot saved. Present: n *)
| LogError.                  (* Error sampling voice channel *)

Section Bot.

Variables GUILD_ID VOICE_CHANNEL_ID : string.

(** [gm.displayName || gm.user.username || userId] *)
Definition displayNameOf (gm : GuildMember) : string :=
  if negb (String.eqb (gm_displayName gm) "") then gm_displayName gm
  else if negb (String.eqb (gm_username gm) "") then gm_username gm
  else gm_user_id gm.

(** The function handed to [db.transaction] in [sampleVoiceChannel]. *)
Definition insert (channel_members : list GuildMember) (t : Z) : Tx unit :=
  (snapshotId <- run (Sql.insertSnapshot t GUILD_ID VOICE_CHANNEL_ID) ;;
   forEach channel_members (fun gm =>
     let userId := gm_user_id gm in
     let displayName := displayNameOf gm in
     run (Sql.upsertMember userId displayName (Some "Raider"%string) t) ;;
     run (Sql.insertPresence snapshotId userId)))%tx.

(** One cycle: the store it leaves and the line it logs.  [t] is
    [Date.now()], read before the transaction starts. *)
Definition sampleVoiceChannel (fetched : Fetched) (t : Z)
    (fault : nat -> bool) (db : Store) : Store * Log :=
  match fetched with
  | FetchThrows => (db, LogError)
  | NotVoice => (db, LogWarn)
  | Voice ms =>
      match db_transaction (insert ms t) fault db with
      | (inr _, db') => (db', LogSaved (length ms))
      | (inl _, db') => (db', LogError)
      end
  end.

End Bot.

(** ** Attendance calculations *)

Definition Qltb (x y : Q) : bool := negb (Qle_bool y x).

Record Attendance := mkAttendance {
  total : Z;
  presentMap : gmap string Z
}.

Record MonthCell := mkCell {
  cell_ym : string;
  present : Z;
  cell_total : Z;
  pct : option Q             (* [None] is null *)
}.

Record Flags := mkFlags { under50 : bool; under75 : bool }.

Record Row := mkRow {
  userId : string;
  name : string;
  row_role : string;
  thisMonth : MonthCell;
  lastMonth : MonthCell;
  flags : Flags
}.

Record Payload := mkPayload {
  ym : string;
  ymPrev : string;
  totals_thisMonth : Z;
  totals_lastMonth : Z;
  rows : list Row;
  below50 : list string;
  below75 : list string
}.

(** [x BETWEEN lo AND hi]; a NaN parameter is bound as NULL, and a
    comparison with NULL selects no row. *)
Definition between (lo hi : option Z) (x : Z) : bool :=
  match lo, hi with
  | Some a, Some b => (a <=? x) && (x <=? b)
  | _, _ => false
  end.

(** The WHERE clause shared by the two range queries. *)
Definition inRange (lo hi : option Z) (c g : string) (s : SnapshotRow) : bool :=
  between lo hi (ts s) && String.eqb (channel_id s) c && String.eqb (guild_id s) g.

Definition qTotalSnapshotsInRange (lo hi : option Z) (c g : string)
    (db : Store) : Z :=
  Z.of_nat (length (List.filter (inRange lo hi c g) (snapshots db))).

(** [presence p JOIN snapshots s ON s.id = p.snapshot_id WHERE ...],
    projected on [p.user_id]. *)
Definition joined (lo hi : option Z) (c g : string) (db : Store) : list string :=
  flat_map (fun p =>
    List.map (fun _ => p_user_id p)
      (List.filter (fun s => (snap_id s =? snapshot_id p) && inRange lo hi c g s)
                   (snapshots db)))
    (presence db).

Definition countOf (u : string) (l : list string) : Z :=
  Z.of_nat (length (List.filter (String.eqb u) l)).

(** [SELECT p.user_id, COUNT( * ) AS present ... GROUP BY p.user_id] *)
Definition qPresenceCountsInRange (lo hi : option Z) (c g : string)
    (db : Store) : list (string * Z) :=
  let j := joined lo hi c g db in
  List.map (fun u => (u, countOf u j)) (remove_dups j).

(** [SELECT user_id, display_name, role FROM members] *)
Definition qMembers (db : Store) : list MemberRow := members db.

(** [new Map(entries)]: a later entry replaces an earlier one with the
    same key. *)
Definition newMap (entries : list (string * Z)) : gmap string Z :=
  list_to_map (reverse entries).

(** [total ? present / total : null] *)
Definition pctOf (p t : Z) : option Q :=
  if t =? 0 then None else Some (p # Z.to_pos t)%Q.

(** [pct ?? -1] *)
Definition sortKey (r : Row) : Q := default (-1 # 1)%Q (pct (thisMonth r)).

(** The order of [rows.sort((a,b) => (b.thisMonth.pct ?? -1) -
    (a.thisMonth.pct ?? -1))]: [a] may stand before [b] when the
    comparator is not positive. *)
Definition byPctDesc (a b : Row) : Prop := Qle_bool (sortKey b) (sortKey a) = true.

#[global] Instance byPctDesc_dec (a b : Row) : Decision (byPctDesc a b).
Proof. unfold byPctDesc. apply _. Defined.

(** [Array.prototype.sort] is a stable sort; with a comparator that is a
    total preorder every stable sort returns the same array, here the one
    of an insertion sort that puts an element before the first one it may
    stand before. *)
Fixpoint insertRow (x : Row) (l : list Row) : list Row :=
  match l with
  | [] => [x]
  | y :: l' => if decide (byPctDesc x y) then x :: l else y :: insertRow x l'
  end.

Definition sortRows (l : list Row) : list Row := foldr insertRow [] l.

Definition isUnder (bound : Q) (p : option Q) : bool :=
  match p with
  | Some q => Qltb q bound
  | None => false
  end.

Section Report.

Variable parseRest : string -> Dayjs.
Variable toEpochMs : LocalDate -> Z -> Z.
Variable today : LocalDate.
Variables GUILD_ID VOICE_CHANNEL_ID : string.

Definition computeAttendance (month : option string) (db : Store) : Attendance :=
  let b := monthBounds parseRest toEpochMs today month in
  let total := qTotalSnapshotsInRange (startMs b) (endMs b)
                 VOICE_CHANNEL_ID GUILD_ID db in
  let presentRows := qPresenceCountsInRange (startMs b) (endMs b)
                       VOICE_CHANNEL_ID GUILD_ID db in
  mkAttendance total (newMap presentRows).

(** The function mapped over the members in [summaryPayload]. *)
Definition rowOf (month monthPrev : string) (this last : Attendance)
    (m : MemberRow) : Row :=
  let presentThis := default 0 (presentMap this !! user_id m) in
  let presentLast := default 0 (presentMap last !! user_id m) in
  let pctThis := pctOf presentThis (total this) in
  let pctLast := pctOf presentLast (total last) in
  mkRow (user_id m)
        (JS.orElse (Some (display_name m)) (user_id m))
        (JS.orElse (Some (role m)) "Raider")
        (mkCell month presentThis (total this) pctThis)
        (mkCell monthPrev presentLast (total last) pctLast)
        (mkFlags (isUnder (1 # 2) pctThis) (isUnder (3 # 4) pctThis)).

Definition summaryPayload (ymCurrent : option string) (db : Store) : Payload :=
  let month := JS.orElse ymCurrent (formatYM (DateOf today)) in
  let monthPrev := lastMonthYM parseRest today (Some month) in
  let this := computeAttendance (Some month) db in
  let last := computeAttendance (Some monthPrev) db in
  let rows := sortRows (List.map (rowOf month monthPrev this last) (qMembers db)) in
  mkPayload month monthPrev (total this) (total last) rows
    (List.map name (List.filter (fun r => under50 (flags r)) rows))
    (List.map name (List.filter (fun r => under75 (flags r) && negb (under50 (flags r))) rows)).

End Report.

(** ** The web server *)

#[local] Unset Elimination Schemes.

Inductive json :=
| JNull
| JBool (b : bool)
| JNum (q : Q)
| JStr (s : string)
| JArr (items : list json)
| JObj (fields : list (string * json)).

#[local] Set Elimination Schemes.

Record Response := mkResponse { status : Z; body : json }.

Module Json.

Definition ofZ (n : Z) : json := JNum (inject_Z n).

(** A number field that may be null. *)
Definition ofPct (p : option Q) : json :=
  match p with
  | Some q => JNum q
  | None => JNull
  end.

Definition ofCell (c : MonthCell) : json :=
  JObj [("ym", JStr (cell_ym c)); ("present", ofZ (present c));
        ("total", ofZ (cell_total c)); ("pct", ofPct (pct c))]%string.

Definition ofRow (r : Row) : json :=
  JObj [("userId", JStr (userId r)); ("name", JStr (name r));
        ("role", JStr (row_role r));
        ("thisMonth", ofCell (thisMonth r));
        ("lastMonth", ofCell (lastMonth r));
        ("flags", JObj [("under50", JBool (under50 (flags r)));
                        ("under75", JBool (under75 (flags r)))])]%string.

Definition ofPayload (p : Payload) : json :=
  JObj [("ym", JStr (ym p)); ("ymPrev", JStr (ymPrev p));
        ("totals", JObj [("thisMonth", ofZ (totals_thisMonth p));
                         ("lastMonth", ofZ (totals_lastMonth p))]);
        ("rows", JArr (List.map ofRow (rows p)));
        ("below50", JArr (List.map JStr (below50 p)));
        ("below75", JArr (List.map JStr (below75 p)))]%string.

End Json.

(** The body of a role request after [express.json()]: each field is
    absent or a string. *)
Record RoleBody := mkRoleBody {
  body_userId : option string;
  body_role : option string
}.

Section Server.

Variable parseRest : string -> Dayjs.
Variable toEpochMs : LocalDate -> Z -> Z.
Variable today : LocalDate.
Variables GUILD_ID VOICE_CHANNEL_ID : string.

(** [app.get('/api/summary', ...)]; [month] is [req.query.month]. *)
Definition getSummary (month : option string) (db : Store) : Response :=
  let s := JS.trim (JS.orElse month "") in
  let ymArg := if String.eqb s "" then None else Some s in
  let data := summaryPayload parseRest toEpochMs today
                GUILD_ID VOICE_CHANNEL_ID ymArg db in
  mkResponse 200 (Json.ofPayload data).

(** [['Raider','Reserve'].includes(role)] *)
Definition isRole (r : string) : bool :=
  String.eqb r "Raider" || String.eqb r "Reserve".

(** [app.post('/api/members/role', ...)]; [None] is a request without a
    parsed body.  The UPDATE is taken to complete. *)
Definition postRole (reqBody : option RoleBody) (db : Store) : Store * Response :=
  let b := default (mkRoleBody None None) reqBody in
  let valid :=
    JS.truthy (body_userId b) && JS.truthy (body_role b)
    && isRole (default "" (body_role b)) in
  if valid
  then (Sql.updateRole (default "" (body_role b)) (default "" (body_userId b)) db,
        mkResponse 200 (JObj [("ok"%string, JBool true)]))
  else (db,
        mkResponse 400
          (JObj [("error"%string,
                  JStr "Provide userId and role in {Raider, Reserve}")])).

End Server.

(** ** Notions used in the statements *)

(** The oracle of a cycle in which the engine refuses nothing. *)
Definition noFault : nat -> bool := fun _ => false.

(** The store a statement leaves when it does not throw. *)
Definition applied {A} (stmt : Store -> SqlError + (A * Store)) (db : Store)
  : Store :=
  match stmt db with
  | inr (_, db') => db'
  | inl _ => db
  end.

(** The rowid [insertSnapshot] hands out in store [db]. *)
Definition nextSnapshotId (db : Store) : Z :=
  Z.max (snapshots_seq db) (Sql.maxRowid (snapshots db)) + 1.

(** One turn of the loop of [insert]: the upsert, then the presence row. *)
Definition occupantStep (sid t : Z) (db : Store) (gm : GuildMember) : Store :=
  applied (Sql.insertPresence sid (gm_user_id gm))
    (applied (Sql.upsertMember (gm_user_id gm) (displayNameOf gm)
                (Some "Raider"%string) t) db).

(** The store after all statements of [insert] have run. *)
Definition recorded (g c : string) (ms : list GuildMember) (t : Z) (db : Store)
  : Store :=
  fold_left (occupantStep (nextSnapshotId db) t) ms
            (applied (Sql.insertSnapshot t g c) db).

(** Statements of one write unit: BEGIN, the snapshot, two per occupant,
    COMMIT. *)
Definition statements (ms : list GuildMember) : nat := 2 * length ms + 3.

Definition sameUser (a b : GuildMember) : bool :=
  String.eqb (gm_user_id a) (gm_user_id b).

(** The occupant list with repeated member ids collapsed, the way a map
    keyed by member id collapses them: one entry per id, at the place of its
    first occurrence, holding what was observed last. *)
Definition putOccupant (acc : list GuildMember) (gm : GuildMember)
  : list GuildMember :=
  if existsb (sameUser gm) acc
  then List.map (fun x => if sameUser gm x then gm else x) acc
  else acc ++ [gm].

Definition dedupOccupants (ms : list GuildMember) : list GuildMember :=
  fold_left putOccupant ms [].

(** The row of member [uid], as [WHERE user_id = ?] finds it. *)
Definition memberRow (uid : string) (db : Store) : option MemberRow :=
  List.find (fun m => String.eqb (user_id m) uid) (members db).

(** The last entry of member [uid] in an occupant list. *)
Definition lastSeenAs (uid : string) (ms : list GuildMember) : option GuildMember :=
  List.find (fun gm => String.eqb (gm_user_id gm) uid) (rev ms).

(** Number of presence rows with key [(sid, uid)]. *)
Definition presenceRows (sid : Z) (uid : string) (db : Store) : nat :=
  length (List.filter (Sql.samePresence sid uid) (presence db)).

(** The constraints of the schema: the three primary keys and the foreign
    key of [presence]. *)
Record schemaOk (db : Store) : Prop := mkSchemaOk {
  pk_members : NoDup (List.map user_id (members db));
  pk_snapshots : NoDup (List.map snap_id (snapshots db));
  pk_presence : NoDup (presence db);
  fk_presence :
    Forall (fun p => Sql.hasSnapshot (snapshot_id p) db = true) (presence db)
}.

(** The inputs of one sampling cycle. *)
Record Cycle := mkCycle {
  cy_guild : string;
  cy_channel : string;
  cy_fetched : Fetched;
  cy_now : Z;
  cy_fault : nat -> bool
}.

Definition runCycle (db : Store) (cy : Cycle) : Store :=
  fst (sampleVoiceChannel (cy_guild cy) (cy_channel cy) (cy_fetched cy)
         (cy_now cy) (cy_fault cy) db).

Definition runCycles (cs : list Cycle) (db : Store) : Store :=
  fold_left runCycle cs db.

(** The stores the program can build from a fresh database file: by
    sampling cycles and role requests. *)
Inductive reachable : Store -> Prop :=
| reach_empty : reachable emptyStore
| reach_cycle db cy : reachable db -> reachable (runCycle db cy)
| reach_role db reqBody : reachable db -> reachable (fst (postRole reqBody db)).

(** The members table after the upsert of [uid] by the sampling cycle. *)
Definition upserted (uid nm : string) (t : Z) (ms : list MemberRow)
  : list MemberRow :=
  if existsb (fun m => String.eqb (user_id m) uid) ms
  then List.map (fun m => if String.eqb (user_id m) uid
                          then Sql.touch nm t m else m) ms
  else ms ++ [mkMember uid nm "Raider" t t].

(** The member ids of an occupant list. *)
Definition idsOf (ms : list GuildMember) : list string := List.map gm_user_id ms.

(** The upsert of occupant [x] at time [t], on the members table. *)
Definition U (t : Z) (M : list MemberRow) (x : GuildMember) : list MemberRow :=
  upserted (gm_user_id x) (displayNameOf x) t M.

(** The table [M] has a row of member [uid]. *)
Definition holds (uid : string) (M : list MemberRow) : bool :=
  existsb (fun m => String.eqb (user_id m) uid) M.

Definition findRow (uid : string) (M : list MemberRow) : option MemberRow :=
  List.find (fun m => String.eqb (user_id m) uid) M.

(** [m'] is the row of the same member, with the role and the first-seen
    time of [m]. *)
Definition sameIdentity (m m' : MemberRow) : Prop :=
  user_id m' = user_id m /\ role m' = role m /\ first_seen m' = first_seen m.

(** Row [m] after a committed cycle at time [t] in which the member was
    last observed as [o], if at all. *)
Definition seenAs (t : Z) (m : MemberRow) (o : option GuildMember) : MemberRow :=
  match o with
  | Some gm => mkMember (user_id m) (displayNameOf gm) (role m) (first_seen m) t
  | None => m
  end.

(** Row [m] with role [r]. *)
Definition withRole (r : string) (m : MemberRow) : MemberRow :=
  mkMember (user_id m) (display_name m) r (first_seen m) (last_seen m).

(** A body field that is absent or empty. *)
Definition missing (o : option string) : Prop := o = None \/ o = Some ""%string.

(** The text has the form [YYYY-MM]: four digits, a dash, two digits. *)
Definition matchesYM (s : string) : bool :=
  match list_ascii_of_string s with
  | [y1; y2; y3; y4; "-"%char; m1; m2] =>
      forallb JS.isDigit [y1; y2; y3; y4; m1; m2]
  | _ => false
  end.

(** [s] is a run of [n] decimal digits that reads as the number [v]. *)
Definition readsBack (n : nat) (v : Z) (s : string) : bool :=
  let cs := list_ascii_of_string s in
  (length cs =? n)%nat && forallb JS.isDigit cs && (JS.number cs =? v).

(** What the cell of member [uid] must hold for the month whose bounds are
    [lo] and [hi]: the shared total, the member's present count, their
    quotient when the total is positive, and null when there is no
    snapshot. *)
Definition monthCellOk (lo hi : option Z) (c g uid : string) (db : Store)
    (cell : MonthCell) : Prop :=
  cell_total cell = qTotalSnapshotsInRange lo hi c g db /\
  present cell = countOf uid (joined lo hi c g db) /\
  (0 < cell_total cell ->
   pct cell = Some (present cell # Z.to_pos (cell_total cell))%Q) /\
  (cell_total cell = 0 -> pct cell = None) /\
  (cell_total cell = 0 -> Json.ofPct (pct cell) = JNull).

(** The ranking the report promises: descending by this month's
    percentage, a row without one after every row with one. *)
Definition rankedBefore (a b : Row) : Prop :=
  match pct (thisMonth a), pct (thisMonth b) with
  | Some x, Some y => (y <= x)%Q
  | Some _, None => True
  | None, Some _ => False
  | None, None => True
  end.

Definition pctNonNegative (r : Row) : Prop :=
  forall q, pct (thisMonth r) = Some q -> (0 <= q)%Q.

(** The rows the two name lists are read from, on the percentage. *)
Definition below50Row (r : Row) : bool := isUnder (1 # 2) (pct (thisMonth r)).

Definition below75Row (r : Row) : bool :=
  isUnder (3 # 4) (pct (thisMonth r)) && negb (isUnder (1 # 2) (pct (thisMonth r))).

(** Membership in the two threshold lists, on the percentage itself. *)
Definition inBelow50 (r : Row) : Prop :=
  exists q, pct (thisMonth r) = Some q /\ (q < 1 # 2)%Q.

Definition inBelow75 (r : Row) : Prop :=
  exists q, pct (thisMonth r) = Some q /\ (1 # 2 <= q)%Q /\ (q < 3 # 4)%Q.

(** The cycle writes: the channel was found and no statement of its write
    unit is refused. *)
Definition commits (cy : Cycle) : bool :=
  match cy_fetched cy with
  | Voice ms => negb (existsb (cy_fault cy) (seq 0 (statements ms)))
  | _ => false
  end.

(** The member ids the cycle observed. *)
Definition occupants (cy : Cycle) : list string :=
  match cy_fetched cy with
  | Voice ms => idsOf ms
  | _ => []
  end.

Definition sees (uid : string) (cy : Cycle) : bool :=
  existsb (String.eqb uid) (occupants cy).

(** The snapshot row a committed cycle appends to store [db]. *)
Definition snapshotOf (db : Store) (cy : Cycle) : SnapshotRow :=
  mkSnapshot (nextSnapshotId db) (cy_now cy) (cy_guild cy) (cy_channel cy).

(** The cycle writes a snapshot that the range query for [lo], [hi],
    channel [c] and guild [g] selects. *)
Definition countsIn (lo hi : option Z) (c g : string) (cy : Cycle) : bool :=
  commits cy && between lo hi (cy_now cy)
  && String.eqb (cy_channel cy) c && String.eqb (cy_guild cy) g.

(** The key classes of the ranking: rows whose sort key equals that of
    [r]. *)
Definition sameKey (r x : Row) : bool := Qeq_bool (sortKey r) (sortKey x).

(** A row without its role. *)
Definition numbersOf (r : Row) : string * string * MonthCell * MonthCell * Flags :=
  (userId r, name r, thisMonth r, lastMonth r, flags r).

(** Every presence row has a member row. *)
Definition presenceHasMember (db : Store) : Prop :=
  Forall (fun p => Sql.hasMember (p_user_id p) db = true) (presence db).

(** Rows of the join of [P] and [S] on the snapshot id, restricted by [R],
    that belong to member [u]. *)
Definition joinCount (u : string) (R : SnapshotRow -> bool)
    (P : list PresenceRow) (S : list SnapshotRow) : nat :=
  length (List.filter (String.eqb u)
    (flat_map (fun p =>
       List.map (fun _ => p_user_id p)
         (List.filter (fun s => (snap_id s =? snapshot_id p) && R s) S)) P)).

(** Presence row [p] of member [u] joins snapshot [s], and [R] selects
    [s]. *)
Definition hitsOf (u : string) (R : SnapshotRow -> bool)
    (s : SnapshotRow) (p : PresenceRow) : bool :=
  String.eqb u (p_user_id p) && (snap_id s =? snapshot_id p) && R s.

(** Row [x] with role [r] shown when it is the row of member [uid]. *)
Definition setRowRole (uid r : string) (x : Row) : Row :=
  if String.eqb (userId x) uid
  then mkRow (userId x) (name x) (JS.orElse (Some r) "Raider")
             (thisMonth x) (lastMonth x) (flags x)
  else x.

(** A host in the UTC zone whose dayjs rejects every string that is not a
    plain date; the concrete instance the examples are evaluated on. *)
Module Example.

Definition daysFromCivil (y m d : Z) : Z :=
  let y' := if m <=? 1 then y - 1 else y in
  let era := y' / 400 in
  let yoe := y' - era * 400 in
  let mp := (m + 10) mod 12 in
  let doy := (153 * mp + 2) / 5 + d - 1 in
  let doe := yoe * 365 + yoe / 4 - yoe / 100 + doy in
  era * 146097 + doe - 719468.

Definition utc (d : LocalDate) (ms : Z) : Z :=
  daysFromCivil (d_y d) (d_M d) (d_D d) * 86400000 + ms.

Definition strict : string -> Dayjs := fun _ => InvalidDate.

(** 15 July 2024. *)
Definition today : LocalDate := mkDate 2024 6 15.

Definition ann := mkGuildMember "u1" "Ann" "ann".
Definition annAgain := mkGuildMember "u1" "Annie" "ann".
Definition bob := mkGuildMember "u2" "" "bob".
Definition cy3 := mkGuildMember "u3" "Cy" "cy".

(** 3 July 2024 12:00, 13:00, 14:00 and 5 June 2024 12:00 UTC. *)
Definition t1 : Z := 1720008000000.
Definition t2 : Z := 1720011600000.
Definition t3 : Z := 1720015200000.
Definition t0 : Z := 1717588800000.

Definition cycle (ms : list GuildMember) (t : Z) : Cycle :=
  mkCycle "g" "c" (Voice ms) t noFault.

(** Four committed cycles: one in June, three in July. *)
Definition db4 : Store :=
  runCycles [cycle [cy3] t0; cycle [ann; bob; annAgain] t1;
             cycle [bob] t2; cycle [bob; cy3] t3] emptyStore.

(** Ten hourly cycles in July 2024: Ann is seen in six of them, bob in
    three, Cy in nine; the last one finds the channel empty. *)
Definition hourly (k : Z) : Z := t1 + k * 3600000.

Definition db10 : Store :=
  runCycles [cycle [ann; bob; cy3] (hourly 0); cycle [ann; bob; cy3] (hourly 1);
             cycle [ann; bob; cy3] (hourly 2); cycle [ann; cy3] (hourly 3);
             cycle [ann; cy3] (hourly 4); cycle [ann; cy3] (hourly 5);
             cycle [cy3] (hourly 6); cycle [cy3] (hourly 7);
             cycle [cy3] (hourly 8); cycle [] (hourly 9)] emptyStore.

(** Two members who show the same display name: the first is seen in six
    of ten hourly cycles, the second in three. *)
Definition sam1 := mkGuildMember "s1" "Sam" "sam".
Definition sam2 := mkGuildMember "s2" "Sam" "sammy".

Definition dbSam : Store :=
  runCycles [cycle [sam1; sam2] (hourly 0); cycle [sam1; sam2] (hourly 1);
             cycle [sam1; sam2] (hourly 2); cycle [sam1] (hourly 3);
             cycle [sam1] (hourly 4); cycle [sam1] (hourly 5);
             cycle [] (hourly 6); cycle [] (hourly 7);
             cycle [] (hourly 8); cycle [] (hourly 9)] emptyStore.

(** [db4] after bob was made a Reserve. *)
Definition dbReserve : Store :=
  fst (postRole (Some (mkRoleBody (Some "u2"%string) (Some "Reserve"%string))) db4).

(** Rows with a given percentage for this month. *)
Definition rowWith (nm : string) (p : option Q) : Row :=
  mkRow nm nm "Raider" (mkCell "2024-07" 0 0 p) (mkCell "2024-06" 0 0 None)
        (mkFlags (isUnder (1 # 2) p) (isUnder (3 # 4) p)).

Definition rowA : Row := rowWith "A" (Some (9 # 10)%Q).
Definition rowB : Row := rowWith "B" (Some (2 # 5)%Q).
Definition rowC : Row := rowWith "C" None.

End Example.

(** * Properties *)

(** ** The month before *)

Lemma readsBack_year_table :
  forallb (fun y => readsBack 4 y (JS.padStart0 (JS.toString y) 4)) (seqZ 0 10000) = true.
Proof. vm_compute. reflexivity. Qed.

Lemma readsBack_month_table :
  forallb (fun m => readsBack 2 m (JS.padStart0 (JS.toString m) 2)) (seqZ 0 100) = true.
Proof. vm_compute. reflexivity. Qed.

Lemma readsBack_year y :
  0 <= y <= 9999 -> readsBack 4 y (JS.padStart0 (JS.toString y) 4) = true.
Proof.
  intros Hy. pose proof readsBack_year_table as T.
  rewrite forallb_forall in T. apply T.
  apply list_elem_of_In, elem_of_seqZ. lia.
Qed.

Lemma readsBack_month m :
  0 <= m <= 99 -> readsBack 2 m (JS.padStart0 (JS.toString m) 2) = true.
Proof.
  intros Hm. pose proof readsBack_month_table as T.
  rewrite forallb_forall in T. apply T.
  apply list_elem_of_In, elem_of_seqZ. lia.
Qed.

Lemma readsBack_4 v s :
  readsBack 4 v s = true ->
  exists a b c d, s = String a (String b (String c (String d EmptyString)))
    /\ forallb JS.isDigit [a; b; c; d] = true /\ JS.number [a; b; c; d] = v.
Proof.
  unfold readsBack. intros H.
  apply andb_prop in H as [H Hv]. apply andb_prop in H as [Hl Hd].
  rewrite <- (string_of_list_ascii_of_string s).
  destruct (list_ascii_of_string s) as [|a [|b [|c [|d [|e l]]]]]; try discriminate.
  exists a, b, c, d. split; [reflexivity|]. split; [exact Hd|]. lia.
Qed.

Lemma readsBack_2 v s :
  readsBack 2 v s = true ->
  exists a b, s = String a (String b EmptyString)
    /\ forallb JS.isDigit [a; b] = true /\ JS.number [a; b] = v.
Proof.
  unfold readsBack. intros H.
  apply andb_prop in H as [H Hv]. apply andb_prop in H as [Hl Hd].
  rewrite <- (string_of_list_ascii_of_string s).
  destruct (list_ascii_of_string s) as [|a [|b [|e l]]]; try discriminate.
  exists a, b. split; [reflexivity|]. split; [exact Hd|]. lia.
Qed.

(** dayjs reads the text of a year and a month back as that month. *)
Lemma dayjs_ymString parseRest y m :
  0 <= y <= 9999 -> 0 <= m <= 99 ->
  dayjs parseRest (ymString y m +:+ "-01") = DateOf (Calendar.newDate y (m - 1)).
Proof.
  intros Hy Hm.
  destruct (readsBack_4 _ _ (readsBack_year y Hy)) as (a & b & c & d & Ey & Dy & Ny).
  destruct (readsBack_2 _ _ (readsBack_month m Hm)) as (e & f & Em & Dm & Nm).
  unfold ymString. rewrite Ey, Em. unfold dayjs. cbv [String.append list_ascii_of_string forallb].
  cbn [forallb] in *.
  repeat (apply andb_prop in Dy as [? Dy]). repeat (apply andb_prop in Dm as [? Dm]).
  repeat match goal with H : JS.isDigit _ = true |- _ => rewrite H; clear H end.
  cbn [andb]. rewrite Ny, Nm. reflexivity.
Qed.

Lemma ymString_truthy y m : JS.truthy (Some (ymString y m)) = true.
Proof.
  unfold JS.truthy, ymString.
  destruct (JS.padStart0 (JS.toString y) 4); reflexivity || (cbn; reflexivity).
Qed.

Lemma monthBefore_newDate y m :
  100 <= y <= 9999 -> 1 <= m <= 12 ->
  Calendar.setMonth (Calendar.newDate y (m - 1)) (m - 1 - 1)
  = mkDate (monthBefore y m).1 ((monthBefore y m).2 - 1) 1.
Proof.
  intros Hy Hm. unfold Calendar.setMonth, Calendar.newDate, Calendar.fullYear, monthBefore.
  cbn [d_y d_M].
  replace ((0 <=? y) && (y <=? 99)) with false by lia.
  destruct (Z.eqb_spec m 1) as [->|Hne]; cbn [fst snd].
  - change ((1 - 1) `div` 12) with 0. change ((1 - 1 - 1) `div` 12) with (-1).
    change ((1 - 1 - 1) `mod` 12) with 11. f_equal; lia.
  - rewrite !(Z.div_small (m - 1) 12) by lia.
    rewrite (Z.mod_small (m - 1 - 1) 12), (Z.div_small (m - 1 - 1) 12) by lia.
    f_equal; lia.
Qed.

(** C6, as the code has it. For every text YYYY-MM with a year from 0100
    to 9999 and a month from 01 to 12, [lastMonthYM] is the text of the
    calendar month before: month 12 of the year before for month 1, the
    month before of the same year otherwise. *)
Theorem lastMonthYM_previous parseRest today (y m : Z) :
  100 <= y <= 9999 -> 1 <= m <= 12 ->
  lastMonthYM parseRest today (Some (ymString y m))
  = ymString (monthBefore y m).1 (monthBefore y m).2.
Proof.
  intros Hy Hm. unfold lastMonthYM, baseOf.
  rewrite ymString_truthy, dayjs_ymString by lia.
  unfold subtractMonth.
  replace (d_M (Calendar.newDate y (m - 1))) with (m - 1)
    by (unfold Calendar.newDate; cbn [d_M]; rewrite Z.mod_small; lia).
  rewrite monthBefore_newDate by lia.
  unfold formatYM, ymString. cbn [d_y d_M].
  replace ((monthBefore y m).2 - 1 + 1) with (monthBefore y m).2 by lia. reflexivity.
Qed.

Lemma lastMonthYM_previous_witness :
  lastMonthYM Example.strict Example.today (Some (ymString 2024 1)) = ymString 2023 12 /\
  lastMonthYM Example.strict Example.today (Some (ymString 2024 7)) = ymString 2024 6 /\
  ymString 2024 1 = "2024-01"%string /\ ymString 2023 12 = "2023-12"%string /\
  ymString 2024 7 = "2024-07"%string /\ ymString 2024 6 = "2024-06"%string.
Proof.
  split; [|split].
  - apply (lastMonthYM_previous Example.strict Example.today 2024 1); lia.
  - apply (lastMonthYM_previous Example.strict Example.today 2024 7); lia.
  - repeat split; vm_compute; reflexivity.
Defined.

(** C6 as stated fails for the years 0000 to 0099, which the [Date]
    constructor reads as 1900 to 1999. *)
Lemma lastMonthYM_two_digit_year :
  ~ (forall y m,
       0 <= y <= 9999 -> 1 <= m <= 12 ->
       lastMonthYM Example.strict Example.today (Some (ymString y m))
       = ymString (fst (monthBefore y m)) (snd (monthBefore y m))).
Proof.
  intros H. specialize (H 50 3 ltac:(lia) ltac:(lia)). vm_compute in H. discriminate H.
Qed.

(** ** The write unit, statement by statement *)

Lemma hasSnapshot_upsert sid uid nm r t db :
  Sql.hasSnapshot sid (applied (Sql.upsertMember uid nm r t) db) = Sql.hasSnapshot sid db.
Proof. reflexivity. Qed.

Lemma hasSnapshot_presence sid sid' uid db :
  Sql.hasSnapshot sid (applied (Sql.insertPresence sid' uid) db) = Sql.hasSnapshot sid db.
Proof.
  unfold applied, Sql.insertPresence.
  destruct (Sql.hasPresence sid' uid db); [reflexivity|].
  destruct (Sql.hasSnapshot sid' db); reflexivity.
Qed.

Lemma hasSnapshot_step sid sid' t db gm :
  Sql.hasSnapshot sid (occupantStep sid' t db gm) = Sql.hasSnapshot sid db.
Proof. unfold occupantStep. now rewrite hasSnapshot_presence, hasSnapshot_upsert. Qed.

Lemma hasSnapshot_next t g c db :
  Sql.hasSnapshot (nextSnapshotId db) (applied (Sql.insertSnapshot t g c) db) = true.
Proof.
  unfold applied, Sql.insertSnapshot, Sql.hasSnapshot. cbn [snapshots].
  rewrite existsb_app. cbn [existsb snap_id]. fold (nextSnapshotId db).
  rewrite Z.eqb_refl. now rewrite orb_true_r.
Qed.

(** A presence insert whose snapshot exists does not throw. *)
Lemma insertPresence_applied sid uid db :
  Sql.hasSnapshot sid db = true ->
  Sql.insertPresence sid uid db = inr (tt, applied (Sql.insertPresence sid uid) db).
Proof.
  intros Hs. unfold applied, Sql.insertPresence. rewrite Hs.
  destruct (Sql.hasPresence sid uid db); reflexivity.
Qed.

(** The loop of [insert], statement by statement: it throws exactly when
    the engine refuses one of its statements. *)
Lemma forEach_outcome sid t ms fault k db :
  Sql.hasSnapshot sid db = true ->
  forEach ms (fun gm =>
     let userId := gm_user_id gm in
     let displayName := displayNameOf gm in
     (run (Sql.upsertMember userId displayName (Some "Raider"%string) t) ;;
      run (Sql.insertPresence sid userId))%tx) fault k db
  = if existsb fault (seq k (2 * length ms))
    then Thrown StorageFailure
    else Done tt (k + 2 * length ms)%nat (fold_left (occupantStep sid t) ms db).
Proof.
  revert k db. induction ms as [|gm ms IH]; intros k db Hs.
  - cbn. now rewrite Nat.add_0_r.
  - replace (2 * length (gm :: ms))%nat with (S (S (2 * length ms))) by (cbn; lia).
    cbn [seq existsb forEach fold_left]. unfold bind at 1. unfold bind at 1.
    unfold run at 1. destruct (fault k) eqn:Fk; [reflexivity|].
    cbn [Sql.upsertMember orb]. unfold run at 1.
    destruct (fault (S k)) eqn:Fk1; [reflexivity|]. cbn [orb].
    rewrite insertPresence_applied by exact Hs.
    rewrite IH by (rewrite hasSnapshot_presence; exact Hs).
    replace (S (S k) + 2 * length ms)%nat with (k + S (S (2 * length ms)))%nat by lia.
    reflexivity.
Qed.

Lemma transaction_outcome g c ms t fault db :
  db_transaction (insert g c ms t) fault db
  = if existsb fault (seq 0 (statements ms))
    then (inl StorageFailure, db)
    else (inr tt, recorded g c ms t db).
Proof.
  unfold db_transaction, statements, insert.
  replace (2 * length ms + 3)%nat with (S (S (2 * length ms + 1))) by lia.
  cbn [seq existsb]. unfold bind at 1. unfold run at 1. cbn [Sql.noop].
  destruct (fault 0%nat); [reflexivity|]. cbn [orb].
  unfold bind at 1. unfold bind at 1. unfold run at 1.
  destruct (fault 1%nat); [reflexivity|]. cbn [orb Sql.insertSnapshot].
  fold (nextSnapshotId db).
  rewrite forEach_outcome by apply hasSnapshot_next.
  rewrite seq_app, existsb_app. cbn [seq existsb].
  destruct (existsb fault (seq 2 (2 * length ms))); [reflexivity|].
  cbn [orb]. unfold bind, run, ret. cbn [Sql.noop].
  destruct (fault (2 + 2 * length ms)%nat); reflexivity.
Qed.

Lemma sampleVoiceChannel_outcome g c ms t fault db :
  sampleVoiceChannel g c (Voice ms) t fault db
  = if existsb fault (seq 0 (statements ms))
    then (db, LogError)
    else (recorded g c ms t db, LogSaved (length ms)).
Proof.
  unfold sampleVoiceChannel. rewrite transaction_outcome.
  destruct (existsb fault (seq 0 (statements ms))); reflexivity.
Qed.

(** ** The schema is kept *)

(** *** What the statements do to each table *)

Lemma step_snapshots sid t db gm :
  snapshots (occupantStep sid t db gm) = snapshots db.
Proof.
  unfold occupantStep, applied, Sql.insertPresence, Sql.upsertMember.
  repeat (case_match; simplify_eq; cbn [snapshots]); reflexivity.
Qed.

Lemma step_seq sid t db gm :
  snapshots_seq (occupantStep sid t db gm) = snapshots_seq db.
Proof.
  unfold occupantStep, applied, Sql.insertPresence, Sql.upsertMember.
  repeat (case_match; simplify_eq; cbn [snapshots_seq]); reflexivity.
Qed.

Lemma step_members sid t db gm :
  members (occupantStep sid t db gm)
  = upserted (gm_user_id gm) (displayNameOf gm) t (members db).
Proof.
  unfold occupantStep. unfold applied at 1. unfold Sql.insertPresence.
  repeat case_match; simplify_eq; reflexivity.
Qed.

Lemma step_presence sid t db gm :
  Sql.hasSnapshot sid db = true ->
  presence (occupantStep sid t db gm)
  = if Sql.hasPresence sid (gm_user_id gm) db then presence db
    else presence db ++ [mkPresence sid (gm_user_id gm)].
Proof.
  intros Hs. unfold occupantStep.
  unfold applied at 1. rewrite insertPresence_applied by (rewrite hasSnapshot_upsert; exact Hs).
  unfold applied at 1. unfold Sql.insertPresence.
  change (Sql.hasPresence sid (gm_user_id gm) (applied _ db))
    with (Sql.hasPresence sid (gm_user_id gm) db).
  rewrite hasSnapshot_upsert, Hs.
  destruct (Sql.hasPresence sid (gm_user_id gm) db); reflexivity.
Qed.

Lemma fold_step_snapshots sid t ms db :
  snapshots (fold_left (occupantStep sid t) ms db) = snapshots db.
Proof.
  revert db. induction ms as [|gm ms IH]; intros db; [reflexivity|].
  cbn [fold_left]. now rewrite IH, step_snapshots.
Qed.

Lemma fold_step_seq sid t ms db :
  snapshots_seq (fold_left (occupantStep sid t) ms db) = snapshots_seq db.
Proof.
  revert db. induction ms as [|gm ms IH]; intros db; [reflexivity|].
  cbn [fold_left]. now rewrite IH, step_seq.
Qed.

Lemma recorded_snapshots g c ms t db :
  snapshots (recorded g c ms t db)
  = snapshots db ++ [mkSnapshot (nextSnapshotId db) t g c].
Proof. unfold recorded. now rewrite fold_step_snapshots. Qed.

Lemma recorded_seq g c ms t db :
  snapshots_seq (recorded g c ms t db) = nextSnapshotId db.
Proof. unfold recorded. now rewrite fold_step_seq. Qed.

(** *** The schema constraints are kept *)

Lemma maxRowid_ge l s : In s l -> snap_id s <= Sql.maxRowid l.
Proof.
  unfold Sql.maxRowid. induction l as [|x l IH]; intros Hin; [destruct Hin|].
  cbn [List.map fold_right]. destruct Hin as [->|Hin]; [lia|].
  specialize (IH Hin). lia.
Qed.

Lemma nextSnapshotId_fresh db :
  ~ In (nextSnapshotId db) (List.map snap_id (snapshots db)).
Proof.
  intros Hin. apply in_map_iff in Hin as (s & Hs & Hin).
  apply maxRowid_ge in Hin. unfold nextSnapshotId in Hs. lia.
Qed.

Lemma hasSnapshot_true sid db :
  Sql.hasSnapshot sid db = true <-> In sid (List.map snap_id (snapshots db)).
Proof.
  unfold Sql.hasSnapshot. rewrite existsb_exists, in_map_iff.
  split; intros (s & H1 & H2); exists s.
  - split; [symmetry; lia|exact H1].
  - split; [exact H2|lia].
Qed.

Lemma hasMember_true uid db :
  Sql.hasMember uid db = true <-> In uid (List.map user_id (members db)).
Proof.
  unfold Sql.hasMember. rewrite existsb_exists, in_map_iff.
  split; intros (m & H1 & H2); exists m.
  - split; [now apply String.eqb_eq|exact H1].
  - split; [exact H2|now apply String.eqb_eq].
Qed.

Lemma samePresence_true sid uid p :
  Sql.samePresence sid uid p = true <-> p = mkPresence sid uid.
Proof.
  unfold Sql.samePresence. destruct p as [s u]. cbn [snapshot_id p_user_id].
  rewrite andb_true_iff, Z.eqb_eq, String.eqb_eq. split.
  - intros [-> ->]. reflexivity.
  - intros [= -> ->]. split; reflexivity.
Qed.

Lemma hasPresence_true sid uid db :
  Sql.hasPresence sid uid db = true <-> In (mkPresence sid uid) (presence db).
Proof.
  unfold Sql.hasPresence. rewrite existsb_exists. split.
  - intros (p & Hin & Hp). apply samePresence_true in Hp. now subst.
  - intros Hin. exists (mkPresence sid uid). split; [exact Hin|].
    now apply samePresence_true.
Qed.

Lemma upserted_ids uid nm t ms :
  List.map user_id (upserted uid nm t ms)
  = if existsb (fun m => String.eqb (user_id m) uid) ms
    then List.map user_id ms else List.map user_id ms ++ [uid].
Proof.
  unfold upserted. destruct (existsb _ ms).
  - rewrite map_map. apply map_ext. intros m.
    destruct (String.eqb (user_id m) uid); reflexivity.
  - now rewrite map_app.
Qed.

Lemma NoDup_snoc {A} (l : list A) (x : A) : NoDup l -> ~ In x l -> NoDup (l ++ [x]).
Proof.
  intros Hl Hx. apply NoDup_app. split; [exact Hl|]. split.
  - intros y Hy Hy'. apply list_elem_of_In in Hy. apply list_elem_of_singleton in Hy'.
    subst. contradiction.
  - apply NoDup_singleton.
Qed.

Lemma schemaOk_insertSnapshot t g c db :
  schemaOk db -> schemaOk (applied (Sql.insertSnapshot t g c) db).
Proof.
  intros [Hm Hs Hp Hf]. unfold applied, Sql.insertSnapshot. fold (nextSnapshotId db).
  constructor; cbn [members snapshots presence].
  - exact Hm.
  - rewrite map_app. cbn [List.map snap_id]. apply NoDup_snoc; [exact Hs|].
    apply nextSnapshotId_fresh.
  - exact Hp.
  - eapply Forall_impl; [exact Hf|]. intros p Hp'. cbn beta in *.
    rewrite hasSnapshot_true in *. cbn [snapshots]. rewrite map_app.
    apply in_or_app. now left.
Qed.

Lemma schemaOk_step sid t db gm :
  Sql.hasSnapshot sid db = true -> schemaOk db -> schemaOk (occupantStep sid t db gm).
Proof.
  intros Hsid [Hm Hs Hp Hf]. constructor.
  - rewrite step_members, upserted_ids.
    destruct (existsb _ (members db)) eqn:E; [exact Hm|].
    apply NoDup_snoc; [exact Hm|]. intros Hin.
    apply hasMember_true in Hin. unfold Sql.hasMember in Hin. congruence.
  - now rewrite step_snapshots.
  - rewrite step_presence by exact Hsid.
    destruct (Sql.hasPresence sid (gm_user_id gm) db) eqn:E; [exact Hp|].
    apply NoDup_snoc; [exact Hp|]. intros Hin. apply hasPresence_true in Hin. congruence.
  - rewrite step_presence by exact Hsid.
    assert (Hf' : Forall (fun p => Sql.hasSnapshot (snapshot_id p) (occupantStep sid t db gm) = true)
                         (presence db)).
    { eapply Forall_impl; [exact Hf|]. intros p Hp'. cbn beta in *.
      now rewrite hasSnapshot_step. }
    destruct (Sql.hasPresence sid (gm_user_id gm) db); [exact Hf'|].
    apply Forall_app. split; [exact Hf'|]. constructor; [|constructor].
    cbn [snapshot_id]. now rewrite hasSnapshot_step.
Qed.

Lemma schemaOk_fold sid t ms db :
  Sql.hasSnapshot sid db = true -> schemaOk db ->
  schemaOk (fold_left (occupantStep sid t) ms db).
Proof.
  revert db. induction ms as [|gm ms IH]; intros db Hs Hok; [exact Hok|].
  cbn [fold_left]. apply IH.
  - now rewrite hasSnapshot_step.
  - now apply schemaOk_step.
Qed.

Lemma schemaOk_recorded g c ms t db : schemaOk db -> schemaOk (recorded g c ms t db).
Proof.
  intros Hok. unfold recorded. apply schemaOk_fold.
  - apply hasSnapshot_next.
  - now apply schemaOk_insertSnapshot.
Qed.

Lemma schemaOk_runCycle db cy : schemaOk db -> schemaOk (runCycle db cy).
Proof.
  intros Hok. unfold runCycle. destruct (cy_fetched cy) as [| |ms]; [exact Hok|exact Hok|].
  rewrite sampleVoiceChannel_outcome.
  destruct (existsb _ _); cbn [fst]; [exact Hok|]. now apply schemaOk_recorded.
Qed.

Lemma updateRole_ids r uid db :
  List.map user_id (members (Sql.updateRole r uid db)) = List.map user_id (members db).
Proof.
  unfold Sql.updateRole. cbn [members]. rewrite map_map. apply map_ext.
  intros m. destruct (String.eqb (user_id m) uid); reflexivity.
Qed.

Lemma schemaOk_postRole reqBody db : schemaOk db -> schemaOk (fst (postRole reqBody db)).
Proof.
  intros Hok. unfold postRole. case_match; cbn [fst]; [|exact Hok].
  destruct Hok as [Hm Hs Hp Hf]. constructor.
  - now rewrite updateRole_ids.
  - exact Hs.
  - exact Hp.
  - exact Hf.
Qed.

Lemma schemaOk_empty : schemaOk emptyStore.
Proof. constructor; cbn; constructor. Qed.

Lemma reachable_schemaOk db : reachable db -> schemaOk db.
Proof.
  induction 1 as [|db cy _ IH|db b _ IH].
  - apply schemaOk_empty.
  - now apply schemaOk_runCycle.
  - now apply schemaOk_postRole.
Qed.

(** ** Counting, the present map and the sort *)

(** *** The range queries *)

Lemma filter_none {A} (f : A -> bool) l :
  (forall x, In x l -> f x = false) -> List.filter f l = [].
Proof.
  induction l as [|x l IH]; intros H; [reflexivity|].
  cbn [List.filter]. rewrite (H x) by now left. apply IH.
  intros y Hy. apply H. now right.
Qed.

(** A key predicate selects at most one row of a table without
    duplicates. *)
Lemma filter_key_le_1 {A} (f : A -> bool) (a : A) l :
  NoDup l -> (forall x, In x l -> f x = true -> x = a) ->
  (length (List.filter f l) <= 1)%nat.
Proof.
  induction l as [|x l IH]; intros Hnd Hkey; [cbn; lia|].
  apply NoDup_cons in Hnd as [Hx Hnd]. cbn [List.filter].
  destruct (f x) eqn:Fx.
  - rewrite filter_none; [cbn; lia|].
    intros y Hy. destruct (f y) eqn:Fy; [|reflexivity].
    exfalso. apply Hx. apply list_elem_of_In.
    rewrite (Hkey x) by (auto; now left).
    rewrite <- (Hkey y) by (auto; now right). exact Hy.
  - apply IH; [exact Hnd|]. intros y Hy. apply Hkey. now right.
Qed.

Lemma countOf_const u v {A} (l : list A) :
  length (List.filter (String.eqb u) (List.map (fun _ => v) l))
  = if String.eqb u v then length l else 0%nat.
Proof.
  induction l as [|x l IH]; [now destruct (String.eqb u v)|].
  cbn [List.map List.filter]. destruct (String.eqb u v); cbn [length]; lia.
Qed.

Section Join.

Variable u : string.
Variable R : SnapshotRow -> bool.

Let J (P : list PresenceRow) (S : list SnapshotRow) : list string :=
  flat_map (fun p =>
    List.map (fun _ => p_user_id p)
      (List.filter (fun s => (snap_id s =? snapshot_id p) && R s) S)) P.

Let hits (s : SnapshotRow) (p : PresenceRow) : bool :=
  String.eqb u (p_user_id p) && (snap_id s =? snapshot_id p) && R s.

Lemma join_cons P s S :
  length (List.filter (String.eqb u) (J P (s :: S)))
  = (length (List.filter (hits s) P) + length (List.filter (String.eqb u) (J P S)))%nat.
Proof.
  induction P as [|p P IH]; [reflexivity|].
  unfold J in *. cbn [flat_map]. rewrite !List.filter_app, !List.length_app, IH, !countOf_const.
  cbn [List.filter]. unfold hits at 2.
  destruct (String.eqb u (p_user_id p)); cbn [andb].
  - destruct ((snap_id s =? snapshot_id p) && R s); cbn [length]; lia.
  - lia.
Qed.

Lemma hits_le P s :
  NoDup P -> (length (List.filter (hits s) P) <= if R s then 1 else 0)%nat.
Proof.
  intros Hnd. destruct (R s) eqn:Rs.
  - apply (filter_key_le_1 _ (mkPresence (snap_id s) u)); [exact Hnd|].
    intros [sid v] _. unfold hits. cbn [p_user_id snapshot_id].
    rewrite !andb_true_iff, String.eqb_eq, Z.eqb_eq. intros [[-> <-] _]. reflexivity.
  - rewrite filter_none; [cbn; lia|]. intros p _. unfold hits. rewrite Rs.
    now rewrite andb_false_r.
Qed.

Lemma join_le P S :
  NoDup P ->
  (length (List.filter (String.eqb u) (J P S)) <= length (List.filter R S))%nat.
Proof.
  intros Hnd. induction S as [|s S IH].
  - clear Hnd. unfold J. induction P as [|p P IHP]; [cbn; lia|].
    cbn [flat_map List.filter List.map app]. exact IHP.
  - rewrite join_cons. pose proof (hits_le P s Hnd) as Hh.
    cbn [List.filter]. destruct (R s); cbn [length]; lia.
Qed.

End Join.

Lemma countOf_le_total lo hi c g u db :
  NoDup (presence db) ->
  countOf u (joined lo hi c g db) <= qTotalSnapshotsInRange lo hi c g db.
Proof.
  intros Hnd. unfold countOf, qTotalSnapshotsInRange, joined.
  apply inj_le. now apply join_le.
Qed.

(** *** The map of present counts *)

Lemma countOf_absent u l : ~ In u l -> countOf u l = 0.
Proof.
  intros Hu. unfold countOf. rewrite filter_none; [reflexivity|].
  intros x Hx. apply String.eqb_neq. intros ->. contradiction.
Qed.

Lemma presentMap_lookup lo hi c g db u :
  default 0 (newMap (qPresenceCountsInRange lo hi c g db) !! u)
  = countOf u (joined lo hi c g db).
Proof.
  unfold newMap, qPresenceCountsInRange.
  set (j := joined lo hi c g db).
  set (entries := List.map (fun v => (v, countOf v j)) (remove_dups j)).
  assert (Hkeys : (reverse entries).*1 = reverse (remove_dups j)).
  { rewrite fmap_reverse. f_equal. unfold entries.
    generalize (remove_dups j). intros l. induction l as [|x l IH]; [reflexivity|].
    cbn. now rewrite IH. }
  destruct (decide (u ∈ j)) as [Hin|Hout].
  - rewrite (elem_of_list_to_map_1 (reverse entries) u (countOf u j)); [reflexivity| |].
    + rewrite Hkeys, reverse_Permutation. apply NoDup_remove_dups.
    + apply elem_of_reverse. unfold entries. apply list_elem_of_In, in_map_iff.
      exists u. split; [reflexivity|]. apply list_elem_of_In, elem_of_remove_dups, Hin.
  - rewrite (not_elem_of_list_to_map_1 (reverse entries) u).
    + cbn. symmetry. apply countOf_absent. intros H. apply Hout, list_elem_of_In, H.
    + rewrite Hkeys. intros H. apply Hout.
      rewrite elem_of_reverse, elem_of_remove_dups in H. exact H.
Qed.

(** *** Sorting *)

Lemma byPctDesc_le a b : byPctDesc a b <-> (sortKey b <= sortKey a)%Q.
Proof. unfold byPctDesc. apply Qle_bool_iff. Qed.

#[local] Instance byPctDesc_total : Total byPctDesc.
Proof.
  intros a b. rewrite !byPctDesc_le.
  destruct (Qlt_le_dec (sortKey a) (sortKey b)) as [H|H].
  - right. now apply Qlt_le_weak.
  - now left.
Qed.

#[local] Instance byPctDesc_trans : Transitive byPctDesc.
Proof.
  intros a b c. rewrite !byPctDesc_le. intros H1 H2. eapply Qle_trans; eassumption.
Qed.

Lemma insertRow_perm x l : Permutation (insertRow x l) (x :: l).
Proof.
  induction l as [|y l IH]; [reflexivity|].
  cbn [insertRow]. destruct (decide (byPctDesc x y)); [reflexivity|].
  rewrite IH. apply perm_swap.
Qed.

Lemma sortRows_perm l : Permutation (sortRows l) l.
Proof.
  induction l as [|x l IH]; [reflexivity|].
  cbn [sortRows foldr]. fold (sortRows l). rewrite insertRow_perm. now constructor.
Qed.

Lemma insertRow_sorted x l :
  StronglySorted byPctDesc l -> StronglySorted byPctDesc (insertRow x l).
Proof.
  induction 1 as [|y l Hs IH Hy]; [repeat constructor|].
  cbn [insertRow]. destruct (decide (byPctDesc x y)) as [Hxy|Hxy].
  - constructor; [now constructor|]. constructor; [exact Hxy|].
    eapply Forall_impl; [exact Hy|]. intros z Hz. cbn beta in *. now transitivity y.
  - constructor; [exact IH|].
    assert (Hyx : byPctDesc y x) by (destruct (byPctDesc_total x y); tauto).
    rewrite (Forall_forall (byPctDesc y)). intros z Hz.
    apply list_elem_of_In in Hz.
    apply (Permutation_in _ (insertRow_perm x l)) in Hz. destruct Hz as [<-|Hz]; [exact Hyx|].
    rewrite Forall_forall in Hy. apply Hy. now apply list_elem_of_In.
Qed.

Lemma sortRows_sorted l : StronglySorted byPctDesc (sortRows l).
Proof.
  induction l as [|x l IH]; [constructor|].
  cbn [sortRows foldr]. fold (sortRows l). now apply insertRow_sorted.
Qed.

Lemma in_sortRows r l : In r (sortRows l) <-> In r l.
Proof.
  split; apply Permutation_in; [apply sortRows_perm|symmetry; apply sortRows_perm].
Qed.

(** ** Repeated occupants *)

(** *** Collapsing repeated occupants *)

Lemma dedup_snoc ms x :
  dedupOccupants (ms ++ [x]) = putOccupant (dedupOccupants ms) x.
Proof. unfold dedupOccupants. now rewrite fold_left_app. Qed.

Lemma sameUser_true a b : sameUser a b = true <-> gm_user_id a = gm_user_id b.
Proof. unfold sameUser. apply String.eqb_eq. Qed.

Lemma existsb_sameUser x D :
  existsb (sameUser x) D = true <-> In (gm_user_id x) (idsOf D).
Proof.
  unfold idsOf. rewrite existsb_exists, in_map_iff. split.
  - intros (y & Hy & E). apply sameUser_true in E. eauto.
  - intros (y & E & Hy). exists y. split; [exact Hy|]. now apply sameUser_true.
Qed.

Lemma putOccupant_ids D x :
  idsOf (putOccupant D x)
  = if existsb (sameUser x) D then idsOf D else idsOf D ++ [gm_user_id x].
Proof.
  unfold putOccupant, idsOf. destruct (existsb (sameUser x) D).
  - rewrite map_map. apply map_ext. intros y.
    destruct (sameUser x y) eqn:E; [|reflexivity]. now apply sameUser_true in E.
  - now rewrite map_app.
Qed.

Lemma dedup_NoDup ms : NoDup (idsOf (dedupOccupants ms)).
Proof.
  induction ms as [|x ms IH] using rev_ind; [constructor|].
  rewrite dedup_snoc, putOccupant_ids.
  destruct (existsb (sameUser x) (dedupOccupants ms)) eqn:E; [exact IH|].
  apply NoDup_snoc; [exact IH|]. intros Hin. apply existsb_sameUser in Hin. congruence.
Qed.

Lemma dedup_ids ms u : In u (idsOf (dedupOccupants ms)) <-> In u (idsOf ms).
Proof.
  induction ms as [|x ms IH] using rev_ind; [reflexivity|].
  rewrite dedup_snoc, putOccupant_ids.
  assert (Hs : In u (idsOf (ms ++ [x])) <-> In u (idsOf ms) \/ gm_user_id x = u).
  { unfold idsOf. rewrite map_app, in_app_iff. cbn [List.map In]. tauto. }
  rewrite Hs, <- IH.
  destruct (existsb (sameUser x) (dedupOccupants ms)) eqn:E.
  - apply existsb_sameUser in E. split; [tauto|]. intros [H|<-]; assumption.
  - rewrite in_app_iff. cbn [In]. tauto.
Qed.

Lemma dedup_fixed D : NoDup (idsOf D) -> dedupOccupants D = D.
Proof.
  induction D as [|x D IH] using rev_ind; [reflexivity|].
  unfold idsOf. rewrite map_app. intros Hnd. apply NoDup_app in Hnd as (HD & Hx & _).
  rewrite dedup_snoc, IH by exact HD. unfold putOccupant.
  destruct (existsb (sameUser x) D) eqn:E; [|reflexivity].
  apply existsb_sameUser in E. exfalso. apply (Hx (gm_user_id x)).
  - now apply list_elem_of_In.
  - cbn. apply list_elem_of_In. now left.
Qed.

(** *** The members table under the loop *)

Lemma fold_step_members sid t ms db :
  members (fold_left (occupantStep sid t) ms db) = fold_left (U t) ms (members db).
Proof.
  revert db. induction ms as [|x ms IH]; intros db; [reflexivity|].
  cbn [fold_left]. now rewrite IH, step_members.
Qed.

Lemma holds_true uid M : holds uid M = true <-> In uid (List.map user_id M).
Proof.
  unfold holds. rewrite existsb_exists, in_map_iff.
  split; intros (m & H1 & H2); exists m.
  - split; [now apply String.eqb_eq|exact H1].
  - split; [exact H2|now apply String.eqb_eq].
Qed.

Lemma holds_U t M x uid :
  holds uid (U t M x) = holds uid M || (String.eqb (gm_user_id x) uid && negb (holds (gm_user_id x) M)).
Proof.
  apply eq_true_iff_eq. rewrite orb_true_iff, andb_true_iff, negb_true_iff, !holds_true.
  unfold U. rewrite upserted_ids. fold (holds (gm_user_id x) M).
  destruct (holds (gm_user_id x) M) eqn:E.
  - split; [tauto|]. intros [H|[_ H]]; [exact H|discriminate].
  - rewrite in_app_iff, String.eqb_eq. cbn [In]. split.
    + intros [H|[<-|[]]]; [now left|now right].
    + intros [H|[-> _]]; [now left|right; now left].
Qed.

Lemma map_touch_absent nm t uid M :
  holds uid M = false ->
  List.map (fun m => if String.eqb (user_id m) uid then Sql.touch nm t m else m) M = M.
Proof.
  induction M as [|m M IH]; [reflexivity|]. unfold holds. cbn [existsb List.map].
  intros H. apply orb_false_elim in H as [H1 H2]. rewrite H1. f_equal. now apply IH.
Qed.

(** A second upsert of the same member replaces what the first wrote. *)
Lemma U_absorb t M x z :
  gm_user_id z = gm_user_id x -> U t (U t M z) x = U t M x.
Proof.
  intros E. unfold U, upserted. rewrite E. fold (holds (gm_user_id x) M).
  destruct (holds (gm_user_id x) M) eqn:H.
  - fold (holds (gm_user_id x)
            (List.map (fun m => if String.eqb (user_id m) (gm_user_id x)
                                then Sql.touch (displayNameOf z) t m else m) M)).
    replace (holds (gm_user_id x) (List.map _ M)) with true.
    + rewrite map_map. apply map_ext. intros m.
      destruct (String.eqb (user_id m) (gm_user_id x)) eqn:Em; cbn [Sql.touch user_id].
      * now rewrite Em.
      * now rewrite Em.
    + symmetry. apply holds_true. rewrite map_map.
      apply holds_true in H. erewrite map_ext; [exact H|].
      intros m. now destruct (String.eqb (user_id m) (gm_user_id x)).
  - rewrite existsb_app. cbn [existsb user_id]. rewrite String.eqb_refl, orb_true_r.
    rewrite map_app, map_touch_absent by exact H. cbn [List.map user_id].
    now rewrite String.eqb_refl.
Qed.

(** Upserts of different members commute once the first one is known. *)
Lemma U_swap t M x w :
  holds (gm_user_id x) M = true -> gm_user_id w <> gm_user_id x ->
  U t (U t M w) x = U t (U t M x) w.
Proof.
  intros Hx Hne.
  assert (Hx' : holds (gm_user_id x) (U t M w) = true) by (rewrite holds_U, Hx; reflexivity).
  assert (Hw' : holds (gm_user_id w) (U t M x) = holds (gm_user_id w) M).
  { rewrite holds_U, Hx. cbn [negb]. now rewrite andb_false_r, orb_false_r. }
  unfold U at 1 3. unfold upserted. fold (holds (gm_user_id x) (U t M w)).
  fold (holds (gm_user_id w) (U t M x)). rewrite Hx', Hw'.
  unfold U, upserted. fold (holds (gm_user_id x) M) (holds (gm_user_id w) M). rewrite Hx.
  destruct (holds (gm_user_id w) M) eqn:Hw.
  - rewrite !map_map. apply map_ext. intros m.
    destruct (String.eqb (user_id m) (gm_user_id w)) eqn:E1,
             (String.eqb (user_id m) (gm_user_id x)) eqn:E2;
      cbn [Sql.touch user_id]; rewrite ?E1, ?E2; try reflexivity.
    apply String.eqb_eq in E1, E2. congruence.
  - rewrite map_app. cbn [List.map user_id].
    replace (String.eqb (gm_user_id w) (gm_user_id x)) with false; [reflexivity|].
    symmetry. now apply String.eqb_neq.
Qed.

Lemma U_commute t D M x :
  holds (gm_user_id x) M = true -> ~ In (gm_user_id x) (idsOf D) ->
  U t (fold_left (U t) D M) x = fold_left (U t) D (U t M x).
Proof.
  revert M. induction D as [|w D IH]; intros M Hx Hout; [reflexivity|].
  cbn [fold_left]. cbn [idsOf List.map In] in Hout.
  rewrite IH.
  - f_equal. apply U_swap; [exact Hx|]. intros E. apply Hout. now left.
  - rewrite holds_U, Hx. reflexivity.
  - intros H. apply Hout. now right.
Qed.

Lemma replace_absent x D :
  ~ In (gm_user_id x) (idsOf D) ->
  List.map (fun y => if sameUser x y then x else y) D = D.
Proof.
  induction D as [|y D IH]; [reflexivity|]. cbn [idsOf List.map In]. intros H.
  destruct (sameUser x y) eqn:E.
  - apply sameUser_true in E. exfalso. apply H. now left.
  - f_equal. apply IH. intros H'. apply H. now right.
Qed.

Lemma U_replace t D M x :
  NoDup (idsOf D) -> In (gm_user_id x) (idsOf D) ->
  U t (fold_left (U t) D M) x
  = fold_left (U t) (List.map (fun y => if sameUser x y then x else y) D) M.
Proof.
  revert M. induction D as [|z D IH]; intros M Hnd Hin; [destruct Hin|].
  cbn [idsOf List.map] in Hnd. apply NoDup_cons in Hnd as [Hz Hnd].
  cbn [List.map fold_left]. destruct (sameUser x z) eqn:E.
  - apply sameUser_true in E.
    assert (Hout : ~ In (gm_user_id x) (idsOf D)).
    { rewrite E. intros H. apply Hz. now apply list_elem_of_In. }
    rewrite replace_absent by exact Hout.
    rewrite U_commute; [now rewrite U_absorb| |exact Hout].
    rewrite holds_U, E, String.eqb_refl. now destruct (holds (gm_user_id z) M).
  - apply IH; [exact Hnd|]. destruct Hin as [H|H]; [|exact H].
    exfalso. assert (sameUser x z = true) by now apply sameUser_true. congruence.
Qed.

Lemma fold_U_dedup t ms M :
  fold_left (U t) ms M = fold_left (U t) (dedupOccupants ms) M.
Proof.
  induction ms as [|x ms IH] using rev_ind; [reflexivity|].
  rewrite fold_left_app, dedup_snoc. cbn [fold_left]. rewrite IH.
  unfold putOccupant. destruct (existsb (sameUser x) (dedupOccupants ms)) eqn:E.
  - apply U_replace; [apply dedup_NoDup|]. now apply existsb_sameUser.
  - now rewrite fold_left_app.
Qed.

(** ** The report *)

(** Every row of a report is the row of a member of the roster. *)
Lemma rows_of_summary parseRest toEpochMs today g c ymCurrent db r :
  let P := summaryPayload parseRest toEpochMs today g c ymCurrent db in
  In r (rows P) ->
  exists m, In m (members db) /\
    r = rowOf (ym P) (ymPrev P)
          (computeAttendance parseRest toEpochMs today g c (Some (ym P)) db)
          (computeAttendance parseRest toEpochMs today g c (Some (ymPrev P)) db) m.
Proof.
  intros P Hin. unfold P, summaryPayload in Hin. cbn [rows] in Hin.
  apply in_sortRows, in_map_iff in Hin as (m & <- & Hm).
  exists m. split; [exact Hm|reflexivity].
Qed.

Lemma pctOf_positive p t : 0 < t -> pctOf p t = Some (p # Z.to_pos t)%Q.
Proof. intros Ht. unfold pctOf. destruct (Z.eqb_spec t 0); [lia|reflexivity]. Qed.

Lemma pctOf_zero p : pctOf p 0 = None.
Proof. reflexivity. Qed.

Lemma monthCellOk_intro lo hi c g uid db label :
  monthCellOk lo hi c g uid db
    (mkCell label
       (default 0 (newMap (qPresenceCountsInRange lo hi c g db) !! uid))
       (qTotalSnapshotsInRange lo hi c g db)
       (pctOf (default 0 (newMap (qPresenceCountsInRange lo hi c g db) !! uid))
              (qTotalSnapshotsInRange lo hi c g db))).
Proof.
  unfold monthCellOk. cbn [cell_total present pct].
  split; [reflexivity|]. split; [apply presentMap_lookup|].
  split; [intros Ht; now apply pctOf_positive|].
  split; intros ->; reflexivity.
Qed.

Lemma pct_cells parseRest toEpochMs today g c ymCurrent db r :
  let P := summaryPayload parseRest toEpochMs today g c ymCurrent db in
  In r (rows P) ->
  let bThis := monthBounds parseRest toEpochMs today (Some (ym P)) in
  let bLast := monthBounds parseRest toEpochMs today (Some (ymPrev P)) in
  monthCellOk (startMs bThis) (endMs bThis) c g (userId r) db (thisMonth r) /\
  monthCellOk (startMs bLast) (endMs bLast) c g (userId r) db (lastMonth r).
Proof.
  intros P Hin bThis bLast.
  destruct (rows_of_summary _ _ _ _ _ _ _ _ Hin) as (m & _ & ->).
  unfold rowOf, computeAttendance. cbn [thisMonth lastMonth userId total presentMap].
  split; apply monthCellOk_intro.
Qed.

(** C1. In every row of every report, for this month and for the last: the
    percentage is present/total when the month has at least one snapshot,
    and null (never 0) when it has none; total and present are the counts
    of snapshots and of the member's presence rows within the month. *)
Theorem pct_is_ratio_or_null parseRest toEpochMs today g c ymCurrent db r :
  let P := summaryPayload parseRest toEpochMs today g c ymCurrent db in
  In r (rows P) ->
  let bThis := monthBounds parseRest toEpochMs today (Some (ym P)) in
  let bLast := monthBounds parseRest toEpochMs today (Some (ymPrev P)) in
  monthCellOk (startMs bThis) (endMs bThis) c g (userId r) db (thisMonth r) /\
  monthCellOk (startMs bLast) (endMs bLast) c g (userId r) db (lastMonth r).
Proof.
  intros P Hin bThis bLast. now apply pct_cells.
Qed.

Lemma pct_is_ratio_or_null_witness :
  exists r,
    In r (rows (summaryPayload Example.strict Example.utc Example.today
                  "g" "c" None Example.db4)) /\
    name r = "Annie"%string /\
    pct (thisMonth r) = Some (1 # 3)%Q /\ pct (lastMonth r) = Some (0 # 1)%Q.
Proof.
  set (r := mkRow "u1" "Annie" "Raider" (mkCell "2024-07" 1 3 (Some (1 # 3)%Q))
              (mkCell "2024-06" 0 1 (Some (0 # 1)%Q)) (mkFlags true true)).
  assert (Hin : In r (rows (summaryPayload Example.strict Example.utc Example.today
                              "g" "c" None Example.db4))).
  { vm_compute. right; right; left. reflexivity. }
  exists r. split; [exact Hin|]. split; [reflexivity|].
  destruct (pct_is_ratio_or_null Example.strict Example.utc Example.today "g" "c" None
              Example.db4 r Hin) as [(_ & _ & H1 & _) (_ & _ & H2 & _)].
  split; [apply H1|apply H2]; reflexivity.
Defined.

Lemma reachable_runCycles cs db : reachable db -> reachable (runCycles cs db).
Proof.
  revert db. induction cs as [|cy cs IH]; intros db H; [exact H|].
  cbn [runCycles fold_left]. apply IH. now constructor.
Qed.

Lemma runCycle_snapshots db cy :
  exists new, snapshots (runCycle db cy) = snapshots db ++ new.
Proof.
  unfold runCycle. destruct (cy_fetched cy) as [| |ms].
  - exists []. cbn. now rewrite app_nil_r.
  - exists []. cbn. now rewrite app_nil_r.
  - rewrite sampleVoiceChannel_outcome. destruct (existsb _ _); cbn [fst].
    + exists []. now rewrite app_nil_r.
    + eexists. apply recorded_snapshots.
Qed.

(** C3. In every store the program can reach, for every member, space and
    range, the member's present count is at most the number of snapshots
    of the range; so it is in both months of every row of every report;
    and a cycle only ever appends to the snapshots. *)
Theorem present_le_total db :
  reachable db ->
  (forall lo hi c g u,
     countOf u (joined lo hi c g db) <= qTotalSnapshotsInRange lo hi c g db) /\
  (forall parseRest toEpochMs today g c ymCurrent r,
     In r (rows (summaryPayload parseRest toEpochMs today g c ymCurrent db)) ->
     present (thisMonth r) <= cell_total (thisMonth r) /\
     present (lastMonth r) <= cell_total (lastMonth r)) /\
  (forall cy, exists new, snapshots (runCycle db cy) = snapshots db ++ new).
Proof.
  intros Hr. apply reachable_schemaOk in Hr. destruct Hr as [_ _ Hp _].
  split; [|split].
  - intros. now apply countOf_le_total.
  - intros pr te td g c ymc r Hin.
    destruct (pct_cells _ _ _ _ _ _ _ _ Hin) as [(E1 & E2 & _) (E3 & E4 & _)].
    rewrite E1, E2, E3, E4. split; now apply countOf_le_total.
  - apply runCycle_snapshots.
Qed.

Lemma present_le_total_witness :
  reachable Example.db4 /\
  countOf "u2" (joined (Some 1719792000000) (Some 1722470399999) "c" "g" Example.db4)
  <= qTotalSnapshotsInRange (Some 1719792000000) (Some 1722470399999) "c" "g" Example.db4.
Proof.
  assert (H : reachable Example.db4).
  { unfold Example.db4. apply reachable_runCycles. exact reach_empty. }
  split; [exact H|]. destruct (present_le_total Example.db4 H) as [H1 _]. apply H1.
Defined.

(** *** Ranking *)

Lemma pctOf_nonneg p t q : 0 <= p -> pctOf p t = Some q -> (0 <= q)%Q.
Proof.
  unfold pctOf. destruct (t =? 0); [discriminate|]. intros Hp [= <-].
  unfold Qle. cbn. lia.
Qed.

Lemma countOf_nonneg u l : 0 <= countOf u l.
Proof. unfold countOf. lia. Qed.

Lemma summary_rows_nonneg parseRest toEpochMs today g c ymCurrent db r :
  In r (rows (summaryPayload parseRest toEpochMs today g c ymCurrent db)) ->
  pctNonNegative r.
Proof.
  intros Hin q Hq.
  destruct (rows_of_summary _ _ _ _ _ _ _ _ Hin) as (m & _ & E).
  rewrite E in Hq. unfold rowOf in Hq. cbn [thisMonth pct] in Hq.
  eapply pctOf_nonneg; [|exact Hq].
  unfold computeAttendance. cbn [presentMap]. rewrite presentMap_lookup.
  apply countOf_nonneg.
Qed.

Lemma byPctDesc_ranked a b :
  pctNonNegative b -> byPctDesc a b -> rankedBefore a b.
Proof.
  intros Hb. rewrite byPctDesc_le. unfold sortKey, rankedBefore, pctNonNegative in *.
  destruct (pct (thisMonth a)) as [x|], (pct (thisMonth b)) as [y|];
    cbn [default from_option id]; try tauto.
  intros Hle. specialize (Hb y eq_refl).
  assert (H : (0 <= -1 # 1)%Q) by (eapply Qle_trans; eassumption).
  unfold Qle in H. cbn in H. lia.
Qed.

Lemma sortRows_ranked l l1 a l2 b l3 :
  Forall pctNonNegative l ->
  sortRows l = l1 ++ a :: l2 ++ b :: l3 -> rankedBefore a b.
Proof.
  intros Hnn E. pose proof (sortRows_sorted l) as Hs. rewrite E in Hs.
  apply StronglySorted_app_1_r in Hs. apply StronglySorted_cons in Hs as [Hs _].
  rewrite Forall_forall in Hs.
  apply byPctDesc_ranked.
  - rewrite Forall_forall in Hnn. apply Hnn. apply list_elem_of_In, in_sortRows.
    rewrite E. apply in_or_app. right. right. apply in_or_app. right. now left.
  - apply Hs. apply list_elem_of_In, in_or_app. right. now left.
Qed.

Lemma example_rows_antisym x y :
  In x [Example.rowA; Example.rowB; Example.rowC] ->
  In y [Example.rowA; Example.rowB; Example.rowC] ->
  byPctDesc x y -> byPctDesc y x -> x = y.
Proof.
  cbn [In]. unfold byPctDesc.
  intros [<-|[<-|[<-|[]]]] [<-|[<-|[<-|[]]]]; vm_compute; congruence.
Qed.

(** C4. The rows of every report are sorted descending by this month's
    percentage; the order the sort puts any rows in ranks a row without a
    percentage after every row with one (within one report all rows share
    the month total, so either all have a percentage or none has); rows
    with 0.9, 0.4 and no percentage come out in that order. *)
Theorem rows_ranked_by_pct :
  (forall parseRest toEpochMs today g c ymCurrent db l1 a l2 b l3,
     rows (summaryPayload parseRest toEpochMs today g c ymCurrent db)
       = l1 ++ a :: l2 ++ b :: l3 -> rankedBefore a b) /\
  (forall l l1 a l2 b l3,
     Forall pctNonNegative l ->
     sortRows l = l1 ++ a :: l2 ++ b :: l3 -> rankedBefore a b) /\
  (forall l, Permutation l [Example.rowA; Example.rowB; Example.rowC] ->
     sortRows l = [Example.rowA; Example.rowB; Example.rowC]).
Proof.
  split; [|split].
  - intros pr te td g c ymc db l1 a l2 b l3 E.
    pose proof (summary_rows_nonneg pr te td g c ymc db) as Hnn.
    unfold summaryPayload in E, Hnn. cbn [rows] in E, Hnn.
    eapply sortRows_ranked; [|exact E].
    rewrite Forall_forall. intros r Hr. apply Hnn.
    apply in_sortRows. now apply list_elem_of_In.
  - intros. eapply sortRows_ranked; eassumption.
  - intros l Hl. apply (StronglySorted_unique_strong byPctDesc).
    + intros x y Hx Hy. apply example_rows_antisym.
      * apply list_elem_of_In in Hx. apply (proj1 (in_sortRows x l)) in Hx.
        exact (Permutation_in x Hl Hx).
      * now apply list_elem_of_In.
    + apply sortRows_sorted.
    + assert (HAB : byPctDesc Example.rowA Example.rowB) by (vm_compute; reflexivity).
      assert (HAC : byPctDesc Example.rowA Example.rowC) by (vm_compute; reflexivity).
      assert (HBC : byPctDesc Example.rowB Example.rowC) by (vm_compute; reflexivity).
      apply SSorted_cons; [apply SSorted_cons; [apply SSorted_cons; [apply SSorted_nil|]|]|].
      * apply List.Forall_nil.
      * apply List.Forall_cons; [exact HBC|apply List.Forall_nil].
      * apply List.Forall_cons; [exact HAB|].
        apply List.Forall_cons; [exact HAC|apply List.Forall_nil].
    + rewrite sortRows_perm. exact Hl.
Qed.

Lemma rows_ranked_by_pct_witness :
  sortRows [Example.rowC; Example.rowB; Example.rowA]
    = [Example.rowA; Example.rowB; Example.rowC] /\
  rankedBefore Example.rowA Example.rowC /\ ~ rankedBefore Example.rowC Example.rowB.
Proof.
  destruct rows_ranked_by_pct as (_ & H2 & H3).
  assert (E : sortRows [Example.rowC; Example.rowB; Example.rowA]
              = [Example.rowA; Example.rowB; Example.rowC]).
  { apply H3. etransitivity; [apply Permutation_rev|]. reflexivity. }
  split; [exact E|]. split.
  - apply (H2 [Example.rowC; Example.rowB; Example.rowA] [] Example.rowA [Example.rowB]
              Example.rowC []).
    + repeat (apply List.Forall_cons || apply List.Forall_nil);
        intros q Hq; vm_compute in Hq;
        first [discriminate Hq | injection Hq as <-; vm_compute; discriminate].
    + exact E.
  - intros H. exact H.
Defined.

(** *** Threshold lists *)

Lemma Qltb_lt x y : Qltb x y = true <-> (x < y)%Q.
Proof.
  unfold Qltb. rewrite negb_true_iff. split.
  - intros H. apply Qnot_le_lt. intros Hle. apply Qle_bool_iff in Hle. congruence.
  - intros H. destruct (Qle_bool y x) eqn:E; [|reflexivity].
    apply Qle_bool_iff in E. exfalso. eapply Qlt_not_le; eassumption.
Qed.

Lemma isUnder_spec bound p :
  isUnder bound p = true <-> exists q, p = Some q /\ (q < bound)%Q.
Proof.
  unfold isUnder. destruct p as [q|].
  - rewrite Qltb_lt. split; [intros H; exists q; auto|intros (q' & [= <-] & H); exact H].
  - split; [discriminate|intros (q & H & _); discriminate].
Qed.

Lemma row_flags parseRest toEpochMs today g c ymCurrent db r :
  In r (rows (summaryPayload parseRest toEpochMs today g c ymCurrent db)) ->
  under50 (flags r) = below50Row r /\
  under75 (flags r) && negb (under50 (flags r)) = below75Row r.
Proof.
  intros Hin. destruct (rows_of_summary _ _ _ _ _ _ _ _ Hin) as (m & _ & ->).
  split; reflexivity.
Qed.

Lemma filter_ext_rows (f f' : Row -> bool) l :
  (forall r, In r l -> f r = f' r) -> List.filter f l = List.filter f' l.
Proof.
  induction l as [|x l IH]; intros H; [reflexivity|].
  cbn [List.filter]. rewrite (H x) by now left.
  rewrite IH; [reflexivity|]. intros r Hr. apply H. now right.
Qed.

Lemma below50Row_spec r : below50Row r = true <-> inBelow50 r.
Proof. unfold below50Row, inBelow50. apply isUnder_spec. Qed.

Lemma below75Row_spec r : below75Row r = true <-> inBelow75 r.
Proof.
  unfold below75Row, inBelow75.
  rewrite andb_true_iff, negb_true_iff. split.
  - intros [H34 Hn]. apply isUnder_spec in H34 as (q & E & H34).
    exists q. split; [exact E|]. split; [|exact H34].
    destruct (Qlt_le_dec q (1 # 2)) as [Hlt|Hle]; [|exact Hle].
    exfalso. assert (isUnder (1 # 2) (pct (thisMonth r)) = true)
      by (apply isUnder_spec; eauto). congruence.
  - intros (q & E & H12 & H34). split; [apply isUnder_spec; eauto|].
    destruct (isUnder (1 # 2) (pct (thisMonth r))) eqn:E'; [|reflexivity].
    apply isUnder_spec in E' as (q' & E2 & Hlt). rewrite E in E2. injection E2 as <-.
    exfalso. eapply Qlt_not_le; eassumption.
Qed.

Lemma not_both_lists r : ~ (inBelow50 r /\ inBelow75 r).
Proof.
  intros [(q & E1 & Hlt) (q' & E2 & Hle & _)].
  rewrite E1 in E2. injection E2 as <-. eapply Qlt_not_le; eassumption.
Qed.

Lemma in_names (f : Row -> bool) l n :
  In n (List.map name (List.filter f l))
  <-> exists r, In r l /\ name r = n /\ f r = true.
Proof.
  rewrite in_map_iff. split.
  - intros (r & E & Hr). apply filter_In in Hr as [Hr Hf]. eauto.
  - intros (r & Hr & E & Hf). exists r. split; [exact E|]. now apply filter_In.
Qed.

Lemma name_decides l r r' :
  NoDup (List.map name l) -> In r l -> In r' l -> name r' = name r -> r' = r.
Proof.
  induction l as [|x l IH]; intros Hnd Hr Hr' E; [destruct Hr|].
  cbn [List.map] in Hnd. apply NoDup_cons in Hnd as [Hx Hnd].
  destruct Hr as [->|Hr], Hr' as [->|Hr'].
  - reflexivity.
  - exfalso. apply Hx. rewrite <- E. apply list_elem_of_In. now apply in_map.
  - exfalso. apply Hx. rewrite E. apply list_elem_of_In. now apply in_map.
  - now apply IH.
Qed.

(** C5, as the code has it. The two lists hold display names, read off
    the rows in report order: [below50] the names of the rows whose
    percentage is defined and below 0.5, [below75] the names of the rows
    whose percentage is defined, at least 0.5 and below 0.75; no row gives
    its name to both.  When the names shown in the report are pairwise
    distinct, a member's name is in [below50] exactly when the member's
    percentage is defined and below 0.5, in [below75] exactly when it is
    defined, at least 0.5 and below 0.75, and no name is in both lists. *)
Theorem threshold_lists_by_row parseRest toEpochMs today g c ymCurrent db :
  let P := summaryPayload parseRest toEpochMs today g c ymCurrent db in
  below50 P = List.map name (List.filter below50Row (rows P)) /\
  below75 P = List.map name (List.filter below75Row (rows P)) /\
  (forall r, (below50Row r = true <-> inBelow50 r) /\
             (below75Row r = true <-> inBelow75 r) /\
             ~ (inBelow50 r /\ inBelow75 r)) /\
  (forall n, In n (below50 P) <-> exists r, In r (rows P) /\ name r = n /\ inBelow50 r) /\
  (forall n, In n (below75 P) <-> exists r, In r (rows P) /\ name r = n /\ inBelow75 r) /\
  (NoDup (List.map name (rows P)) ->
   (forall r, In r (rows P) ->
      (In (name r) (below50 P) <-> inBelow50 r) /\
      (In (name r) (below75 P) <-> inBelow75 r)) /\
   (forall n, ~ (In n (below50 P) /\ In n (below75 P)))).
Proof.
  intros P.
  assert (E50 : below50 P = List.map name (List.filter below50Row (rows P))).
  { unfold P at 1, summaryPayload at 1. cbn [below50]. fold (rows P). f_equal.
    apply filter_ext_rows. intros r Hr.
    exact (proj1 (row_flags parseRest toEpochMs today g c ymCurrent db r Hr)). }
  assert (E75 : below75 P = List.map name (List.filter below75Row (rows P))).
  { unfold P at 1, summaryPayload at 1. cbn [below75]. fold (rows P). f_equal.
    apply filter_ext_rows. intros r Hr.
    exact (proj2 (row_flags parseRest toEpochMs today g c ymCurrent db r Hr)). }
  assert (M50 : forall n, In n (below50 P)
                  <-> exists r, In r (rows P) /\ name r = n /\ inBelow50 r).
  { intros n. rewrite E50, in_names. split; intros (r & H1 & H2 & H3); exists r;
      (split; [exact H1|split; [exact H2|now apply below50Row_spec]]). }
  assert (M75 : forall n, In n (below75 P)
                  <-> exists r, In r (rows P) /\ name r = n /\ inBelow75 r).
  { intros n. rewrite E75, in_names. split; intros (r & H1 & H2 & H3); exists r;
      (split; [exact H1|split; [exact H2|now apply below75Row_spec]]). }
  split; [exact E50|]. split; [exact E75|]. split.
  { intros r. split; [apply below50Row_spec|]. split; [apply below75Row_spec|].
    apply not_both_lists. }
  split; [exact M50|]. split; [exact M75|].
  intros Hnd.
  assert (Hrow : forall r, In r (rows P) ->
            (In (name r) (below50 P) <-> inBelow50 r) /\
            (In (name r) (below75 P) <-> inBelow75 r)).
  { intros r Hr. split.
    - rewrite M50. split; [|intros H; exists r; auto].
      intros (r' & Hr' & E & H). now rewrite <- (name_decides _ r r' Hnd Hr Hr' E).
    - rewrite M75. split; [|intros H; exists r; auto].
      intros (r' & Hr' & E & H). now rewrite <- (name_decides _ r r' Hnd Hr Hr' E). }
  split; [exact Hrow|].
  intros n [H1 H2]. apply M50 in H1 as (r & Hr & <- & H50).
  apply (Hrow r Hr) in H2. exact (not_both_lists r (conj H50 H2)).
Qed.

Lemma threshold_lists_by_row_witness :
  NoDup (List.map name
           (rows (summaryPayload Example.strict Example.utc Example.today "g" "c" None
                    Example.db10))) /\
  below50 (summaryPayload Example.strict Example.utc Example.today "g" "c" None
             Example.db10) = ["bob"%string] /\
  below75 (summaryPayload Example.strict Example.utc Example.today "g" "c" None
             Example.db10) = ["Ann"%string] /\
  ~ In "Ann"%string
      (below50 (summaryPayload Example.strict Example.utc Example.today "g" "c" None
                  Example.db10)).
Proof.
  assert (Hnd : NoDup (List.map name
                  (rows (summaryPayload Example.strict Example.utc Example.today "g" "c"
                           None Example.db10)))).
  { vm_compute. repeat (apply NoDup_cons_2 || apply NoDup_nil_2);
      rewrite ?elem_of_cons, elem_of_nil; intros H; decompose [or] H; discriminate || tauto. }
  destruct (threshold_lists_by_row Example.strict Example.utc Example.today "g" "c"
              None Example.db10) as (E1 & E2 & _ & _ & _ & Hd).
  destruct (Hd Hnd) as [_ Hno].
  split; [exact Hnd|].
  assert (B50 : below50 (summaryPayload Example.strict Example.utc Example.today "g" "c"
                           None Example.db10) = ["bob"%string])
    by (rewrite E1; vm_compute; reflexivity).
  assert (B75 : below75 (summaryPayload Example.strict Example.utc Example.today "g" "c"
                           None Example.db10) = ["Ann"%string])
    by (rewrite E2; vm_compute; reflexivity).
  split; [exact B50|]. split; [exact B75|].
  intros H. apply (Hno "Ann"%string). split; [exact H|]. rewrite B75. left. reflexivity.
Defined.

(** C5 as stated fails when two members show the same display name: with
    one of them at 0.6 and the other at 0.3 the name stands in both
    lists. *)
Lemma threshold_lists_share_a_name :
  ~ (forall db, reachable db ->
       forall n,
         ~ (In n (below50 (summaryPayload Example.strict Example.utc Example.today
                             "g" "c" None db)) /\
            In n (below75 (summaryPayload Example.strict Example.utc Example.today
                             "g" "c" None db)))).
Proof.
  intros H.
  assert (Hr : reachable Example.dbSam).
  { unfold Example.dbSam. apply reachable_runCycles. exact reach_empty. }
  apply (H Example.dbSam Hr "Sam"%string).
  split; vm_compute; left; reflexivity.
Qed.

(** ** The sampling cycle *)

(** *** The presence table under the loop *)

Lemma fold_step_presence sid t ms db :
  Sql.hasSnapshot sid db = true ->
  (forall u, ~ In (mkPresence sid u) (presence db)) ->
  presence (fold_left (occupantStep sid t) ms db)
  = presence db ++ List.map (mkPresence sid) (idsOf (dedupOccupants ms)).
Proof.
  intros Hs Hfresh. induction ms as [|x ms IH] using rev_ind.
  - cbn. now rewrite app_nil_r.
  - rewrite fold_left_app. cbn [fold_left].
    rewrite step_presence by (rewrite <- Hs; clear; induction ms as [|y ms IH] using rev_ind;
      [reflexivity|rewrite fold_left_app; cbn [fold_left]; now rewrite hasSnapshot_step]).
    rewrite dedup_snoc, putOccupant_ids.
    assert (E : Sql.hasPresence sid (gm_user_id x) (fold_left (occupantStep sid t) ms db)
                = existsb (sameUser x) (dedupOccupants ms)).
    { apply eq_true_iff_eq. rewrite hasPresence_true, existsb_sameUser, IH, in_app_iff.
      rewrite in_map_iff. split.
      - intros [H|(u & [= <-] & H)]; [now apply Hfresh in H|exact H].
      - intros H. right. eauto. }
    rewrite E. destruct (existsb (sameUser x) (dedupOccupants ms)); [exact IH|].
    rewrite IH, map_app, app_assoc. reflexivity.
Qed.

Lemma presence_fresh t g c db u :
  schemaOk db ->
  ~ In (mkPresence (nextSnapshotId db) u) (presence (applied (Sql.insertSnapshot t g c) db)).
Proof.
  intros [_ _ _ Hf] Hin. unfold applied, Sql.insertSnapshot in Hin. cbn [presence] in Hin.
  rewrite Forall_forall in Hf. apply list_elem_of_In, Hf in Hin. cbn [snapshot_id] in Hin.
  apply hasSnapshot_true in Hin. now apply nextSnapshotId_fresh in Hin.
Qed.

Lemma recorded_presence g c ms t db :
  schemaOk db ->
  presence (recorded g c ms t db)
  = presence db
    ++ List.map (mkPresence (nextSnapshotId db)) (idsOf (dedupOccupants ms)).
Proof.
  intros Hok. unfold recorded. rewrite fold_step_presence.
  - reflexivity.
  - apply hasSnapshot_next.
  - intros u. now apply presence_fresh.
Qed.

Lemma recorded_members g c ms t db :
  members (recorded g c ms t db) = fold_left (U t) ms (members db).
Proof. unfold recorded. now rewrite fold_step_members. Qed.

Lemma Store_ext a b :
  members a = members b -> snapshots a = snapshots b -> presence a = presence b ->
  snapshots_seq a = snapshots_seq b -> a = b.
Proof. destruct a, b. cbn. now intros -> -> -> ->. Qed.

Lemma recorded_dedup g c ms t db :
  schemaOk db -> recorded g c ms t db = recorded g c (dedupOccupants ms) t db.
Proof.
  intros Hok. apply Store_ext.
  - rewrite !recorded_members. apply fold_U_dedup.
  - now rewrite !recorded_snapshots.
  - rewrite !recorded_presence by exact Hok.
    now rewrite (dedup_fixed (dedupOccupants ms)) by apply dedup_NoDup.
  - now rewrite !recorded_seq.
Qed.

Lemma filter_key_eq_1 {A} (f : A -> bool) (a : A) l :
  NoDup l -> In a l -> (forall x, f x = true <-> x = a) ->
  length (List.filter f l) = 1%nat.
Proof.
  intros Hnd Hin Hf.
  pose proof (filter_key_le_1 f a l Hnd (fun x _ H => proj1 (Hf x) H)) as Hle.
  assert (Hin' : In a (List.filter f l)) by (apply filter_In; split; [exact Hin|now apply Hf]).
  destruct (List.filter f l); [destruct Hin'|]. cbn [length] in *. lia.
Qed.

Lemma noFault_clean n k : existsb noFault (seq k n) = false.
Proof. revert k. induction n as [|n IH]; intros k; [reflexivity|]. cbn. apply IH. Qed.

(** C7. Repeating a member in the occupant list raises nothing and leaves
    exactly one presence row for the new snapshot and that member; the
    store is the one the collapsed list gives, the collapsed list holding
    every member id of the list once. *)
Theorem duplicate_occupants_collapse g c ms t db :
  schemaOk db ->
  sampleVoiceChannel g c (Voice ms) t noFault db
    = (recorded g c ms t db, LogSaved (length ms)) /\
  (forall gm, In gm ms ->
     presenceRows (nextSnapshotId db) (gm_user_id gm) (recorded g c ms t db) = 1%nat) /\
  recorded g c ms t db = recorded g c (dedupOccupants ms) t db /\
  NoDup (idsOf (dedupOccupants ms)) /\
  (forall u, In u (idsOf (dedupOccupants ms)) <-> In u (idsOf ms)).
Proof.
  intros Hok. split; [|split; [|split; [|split]]].
  - rewrite sampleVoiceChannel_outcome. now rewrite noFault_clean.
  - intros gm Hin. unfold presenceRows.
    apply (filter_key_eq_1 _ (mkPresence (nextSnapshotId db) (gm_user_id gm))).
    + apply (pk_presence _ (schemaOk_recorded g c ms t db Hok)).
    + rewrite recorded_presence by exact Hok. apply in_or_app. right.
      apply in_map, dedup_ids. unfold idsOf. now apply in_map.
    + intros p. apply samePresence_true.
  - now apply recorded_dedup.
  - apply dedup_NoDup.
  - apply dedup_ids.
Qed.

Lemma duplicate_occupants_collapse_witness :
  schemaOk emptyStore /\
  presenceRows 1 "u1"
    (fst (sampleVoiceChannel "g" "c" (Voice [Example.ann; Example.bob; Example.annAgain])
            Example.t1 noFault emptyStore)) = 1%nat /\
  fst (sampleVoiceChannel "g" "c" (Voice [Example.ann; Example.bob; Example.annAgain])
         Example.t1 noFault emptyStore)
  = fst (sampleVoiceChannel "g" "c" (Voice [Example.annAgain; Example.bob])
           Example.t1 noFault emptyStore).
Proof.
  split; [apply schemaOk_empty|].
  destruct (duplicate_occupants_collapse "g" "c"
              [Example.ann; Example.bob; Example.annAgain] Example.t1 emptyStore
              schemaOk_empty) as (E & H1 & H2 & _).
  destruct (duplicate_occupants_collapse "g" "c"
              [Example.annAgain; Example.bob] Example.t1 emptyStore
              schemaOk_empty) as (E' & _).
  rewrite E, E'. cbn [fst]. split.
  - apply (H1 Example.ann). now left.
  - exact H2.
Defined.

(** C2. One write unit is all or nothing: when the engine refuses one of
    its statements the store is left as it was and the failure is logged;
    otherwise the store holds exactly one more snapshot, one presence row
    for it per distinct occupant, and a member row for every occupant. *)
Theorem write_unit_atomic g c ms t fault db :
  schemaOk db ->
  let out := sampleVoiceChannel g c (Voice ms) t fault db in
  let sid := nextSnapshotId db in
  (existsb fault (seq 0 (statements ms)) = true /\ out = (db, LogError)) \/
  (existsb fault (seq 0 (statements ms)) = false /\
   out = (recorded g c ms t db, LogSaved (length ms)) /\
   snapshots (fst out) = snapshots db ++ [mkSnapshot sid t g c] /\
   presence (fst out)
     = presence db ++ List.map (mkPresence sid) (idsOf (dedupOccupants ms)) /\
   (forall gm, In gm ms -> Sql.hasMember (gm_user_id gm) (fst out) = true) /\
   schemaOk (fst out)).
Proof.
  intros Hok out sid. unfold out. rewrite sampleVoiceChannel_outcome.
  destruct (existsb fault (seq 0 (statements ms))); [left; split; reflexivity|].
  right. split; [reflexivity|]. split; [reflexivity|]. cbn [fst].
  split; [apply recorded_snapshots|]. split; [now apply recorded_presence|].
  split; [|now apply schemaOk_recorded].
  intros gm Hin. unfold Sql.hasMember. rewrite recorded_members.
  fold (holds (gm_user_id gm) (fold_left (U t) ms (members db))).
  clear Hok. revert Hin. generalize (members db). clear.
  induction ms as [|x ms IH]; intros M Hin; [destruct Hin|].
  cbn [fold_left]. destruct Hin as [->|Hin]; [|now apply IH].
  assert (H : holds (gm_user_id gm) (U t M gm) = true).
  { rewrite holds_U, String.eqb_refl. now destruct (holds (gm_user_id gm) M). }
  revert H. generalize (U t M gm). clear. induction ms as [|y ms IH]; intros M H; [exact H|].
  cbn [fold_left]. apply IH. rewrite holds_U, H. reflexivity.
Qed.

Lemma write_unit_atomic_witness :
  schemaOk emptyStore /\
  sampleVoiceChannel "g" "c" (Voice [Example.ann; Example.bob]) Example.t1
    (fun k => Nat.eqb k 4) emptyStore = (emptyStore, LogError) /\
  presence (fst (sampleVoiceChannel "g" "c" (Voice [Example.ann; Example.bob]) Example.t1
                   noFault emptyStore))
  = [mkPresence 1 "u1"; mkPresence 1 "u2"].
Proof.
  split; [apply schemaOk_empty|]. split.
  - destruct (write_unit_atomic "g" "c" [Example.ann; Example.bob] Example.t1
                (fun k => Nat.eqb k 4) emptyStore schemaOk_empty) as [[_ H]|[H _]].
    + exact H.
    + discriminate H.
  - destruct (write_unit_atomic "g" "c" [Example.ann; Example.bob] Example.t1
                noFault emptyStore schemaOk_empty) as [[H _]|(_ & _ & _ & H & _)].
    + discriminate H.
    + rewrite H. reflexivity.
Defined.

(** ** Member rows across cycles *)

(** *** A member row under the upsert *)

Lemma findRow_some uid M m :
  findRow uid M = Some m -> user_id m = uid /\ holds uid M = true.
Proof.
  intros H. apply find_some in H as [Hin E]. apply String.eqb_eq in E.
  split; [exact E|]. apply holds_true, in_map_iff. eauto.
Qed.

Lemma findRow_map uid (f : MemberRow -> MemberRow) M :
  (forall m, user_id (f m) = user_id m) ->
  findRow uid (List.map f M) = option_map f (findRow uid M).
Proof.
  intros Hf. induction M as [|m M IH]; [reflexivity|].
  cbn [List.map findRow List.find]. rewrite Hf.
  destruct (String.eqb (user_id m) uid); [reflexivity|exact IH].
Qed.

Lemma findRow_app_l uid M N m :
  findRow uid M = Some m -> findRow uid (M ++ N) = Some m.
Proof.
  induction M as [|x M IH]; [discriminate|]. cbn [app findRow List.find].
  destruct (String.eqb (user_id x) uid); [trivial|exact IH].
Qed.

Lemma findRow_U t M x uid m :
  findRow uid M = Some m ->
  findRow uid (U t M x)
  = Some (if String.eqb (gm_user_id x) uid then Sql.touch (displayNameOf x) t m else m).
Proof.
  intros Hm. destruct (findRow_some _ _ _ Hm) as [Eid Hh].
  unfold U, upserted. fold (holds (gm_user_id x) M).
  destruct (holds (gm_user_id x) M) eqn:Hx.
  - rewrite findRow_map, Hm.
    + cbn [option_map]. rewrite Eid, (String.eqb_sym uid). reflexivity.
    + intros r. now destruct (String.eqb (user_id r) (gm_user_id x)).
  - rewrite (findRow_app_l _ _ _ _ Hm).
    destruct (String.eqb_spec (gm_user_id x) uid) as [E|_]; [|reflexivity].
    rewrite E in Hx. congruence.
Qed.

Lemma lastSeenAs_snoc uid ms x :
  lastSeenAs uid (ms ++ [x])
  = if String.eqb (gm_user_id x) uid then Some x else lastSeenAs uid ms.
Proof. unfold lastSeenAs. rewrite rev_unit. reflexivity. Qed.

Lemma findRow_fold t ms M uid m :
  findRow uid M = Some m ->
  findRow uid (fold_left (U t) ms M) = Some (seenAs t m (lastSeenAs uid ms)).
Proof.
  intros Hm. induction ms as [|x ms IH] using rev_ind; [exact Hm|].
  rewrite fold_left_app. cbn [fold_left]. rewrite (findRow_U _ _ _ _ _ IH), lastSeenAs_snoc.
  destruct (String.eqb (gm_user_id x) uid); [|reflexivity].
  cbn [seenAs]. destruct (lastSeenAs uid ms); reflexivity.
Qed.

Lemma memberRow_recorded g c ms t db uid m :
  memberRow uid db = Some m ->
  memberRow uid (recorded g c ms t db) = Some (seenAs t m (lastSeenAs uid ms)).
Proof.
  intros Hm. unfold memberRow. rewrite recorded_members. now apply findRow_fold.
Qed.

Lemma seenAs_identity t m o : sameIdentity m (seenAs t m o).
Proof. destruct o; repeat split. Qed.

Lemma memberRow_cycle g c fetched t fault db uid m :
  memberRow uid db = Some m ->
  exists m', memberRow uid (fst (sampleVoiceChannel g c fetched t fault db)) = Some m'
             /\ sameIdentity m m'.
Proof.
  intros Hm. destruct fetched as [| |ms].
  - exists m. split; [exact Hm|repeat split].
  - exists m. split; [exact Hm|repeat split].
  - rewrite sampleVoiceChannel_outcome. destruct (existsb _ _); cbn [fst].
    + exists m. split; [exact Hm|repeat split].
    + exists (seenAs t m (lastSeenAs uid ms)).
      split; [apply memberRow_recorded; exact Hm|apply seenAs_identity].
Qed.

(** C10. A sampling cycle leaves the role and the first-seen time of every
    member already in the table; a committed cycle that saw the member
    sets the display name to the one observed last and the last-seen time
    to the time of the cycle, and touches no other member; so the role
    survives any number of cycles. *)
Theorem upsert_keeps_role_and_first_seen uid m db :
  memberRow uid db = Some m ->
  (forall g c fetched t fault, exists m',
     memberRow uid (fst (sampleVoiceChannel g c fetched t fault db)) = Some m' /\
     sameIdentity m m') /\
  (forall g c ms t fault,
     existsb fault (seq 0 (statements ms)) = false ->
     memberRow uid (fst (sampleVoiceChannel g c (Voice ms) t fault db))
     = Some (seenAs t m (lastSeenAs uid ms))) /\
  (forall cs, exists m',
     memberRow uid (runCycles cs db) = Some m' /\ sameIdentity m m').
Proof.
  intros Hm. split; [|split].
  - intros. now apply memberRow_cycle.
  - intros g c ms t fault Hf. rewrite sampleVoiceChannel_outcome, Hf. cbn [fst].
    now apply memberRow_recorded.
  - intros cs. revert db m Hm. induction cs as [|cy cs IH]; intros db m Hm.
    + exists m. split; [exact Hm|repeat split].
    + cbn [runCycles fold_left].
      destruct (memberRow_cycle (cy_guild cy) (cy_channel cy) (cy_fetched cy) (cy_now cy)
                  (cy_fault cy) db uid m Hm) as (m1 & H1 & I1 & I2 & I3).
      destruct (IH (runCycle db cy) m1 H1) as (m2 & H2 & J1 & J2 & J3).
      exists m2. split; [exact H2|]. repeat split; congruence.
Qed.

Lemma upsert_keeps_role_and_first_seen_witness :
  memberRow "u2" Example.dbReserve
    = Some (mkMember "u2" "bob" "Reserve" Example.t1 Example.t3) /\
  exists m',
    memberRow "u2" (runCycles [Example.cycle [Example.bob; Example.ann] (Example.hourly 5)]
                      Example.dbReserve) = Some m' /\
    role m' = "Reserve"%string.
Proof.
  assert (Hm : memberRow "u2" Example.dbReserve
               = Some (mkMember "u2" "bob" "Reserve" Example.t1 Example.t3))
    by (vm_compute; reflexivity).
  split; [exact Hm|].
  destruct (upsert_keeps_role_and_first_seen "u2" _ Example.dbReserve Hm) as (_ & _ & H).
  destruct (H [Example.cycle [Example.bob; Example.ann] (Example.hourly 5)])
    as (m' & H1 & _ & H2 & _).
  exists m'. split; [exact H1|exact H2].
Defined.

(** ** The two requests *)

(** *** The role request *)

Lemma truthy_false o : JS.truthy o = false <-> missing o.
Proof.
  unfold JS.truthy, missing. destruct o as [s|].
  - rewrite negb_false_iff, String.eqb_eq. split; [intros ->; now right|].
    intros [H|[= ->]]; [discriminate|reflexivity].
  - split; [now left|reflexivity].
Qed.

Lemma isRole_true r : isRole r = true <-> r = "Raider"%string \/ r = "Reserve"%string.
Proof. unfold isRole. now rewrite orb_true_iff, !String.eqb_eq. Qed.

Lemma findRow_none uid M : findRow uid M = None -> holds uid M = false.
Proof.
  intros H. destruct (holds uid M) eqn:E; [|reflexivity].
  apply existsb_exists in E as (m & Hin & Hm).
  now rewrite (find_none _ _ H m Hin) in Hm.
Qed.

Lemma map_role_absent r uid M :
  holds uid M = false ->
  List.map (fun m => if String.eqb (user_id m) uid
                     then mkMember (user_id m) (display_name m) r (first_seen m) (last_seen m)
                     else m) M = M.
Proof.
  induction M as [|m M IH]; [reflexivity|]. unfold holds. cbn [existsb List.map].
  intros H. apply orb_false_elim in H as [H1 H2]. rewrite H1. f_equal. now apply IH.
Qed.

Lemma memberRow_updateRole r uid v db :
  memberRow v (Sql.updateRole r uid db)
  = option_map (fun m => if String.eqb v uid then withRole r m else m) (memberRow v db).
Proof.
  unfold memberRow.
  change (findRow v (members (Sql.updateRole r uid db))
          = option_map (fun m => if String.eqb v uid then withRole r m else m)
                       (findRow v (members db))).
  unfold Sql.updateRole. cbn [members].
  rewrite (findRow_map v (fun m => if String.eqb (user_id m) uid
                                   then mkMember (user_id m) (display_name m) r
                                                 (first_seen m) (last_seen m)
                                   else m)).
  - destruct (findRow v (members db)) as [m|] eqn:E; [|reflexivity].
    apply findRow_some in E as [E _]. cbn [option_map].
    replace (String.eqb v uid) with (String.eqb (user_id m) uid) by now rewrite E.
    reflexivity.
  - intros m. now destruct (String.eqb (user_id m) uid).
Qed.

(** C8, as the code has it. A request without a member id, without a role
    or with a role other than Raider and Reserve is answered 400 with an
    error message and changes nothing; any other request is answered 200
    [{ok:true}]: it sets the role of the member when the table has one
    with that id, and changes nothing when it has none; no other member
    and no snapshot or presence row is touched. *)
Theorem role_update_contract reqBody db :
  let b := default (mkRoleBody None None) reqBody in
  let out := postRole reqBody db in
  ((missing (body_userId b) \/ missing (body_role b) \/
    (forall r, body_role b = Some r -> r <> "Raider"%string /\ r <> "Reserve"%string)) ->
   fst out = db /\ status (snd out) = 400 /\
   exists msg, body (snd out) = JObj [("error"%string, JStr msg)]) /\
  (forall uid r,
     body_userId b = Some uid -> uid <> ""%string -> body_role b = Some r ->
     r = "Raider"%string \/ r = "Reserve"%string ->
     snd out = mkResponse 200 (JObj [("ok"%string, JBool true)]) /\
     (forall m, memberRow uid db = Some m ->
                memberRow uid (fst out) = Some (withRole r m)) /\
     (memberRow uid db = None -> fst out = db) /\
     (forall v, v <> uid -> memberRow v (fst out) = memberRow v db) /\
     snapshots (fst out) = snapshots db /\ presence (fst out) = presence db).
Proof.
  intros b out. unfold out, postRole. fold b. split.
  - intros Hbad.
    assert (E : JS.truthy (body_userId b) && JS.truthy (body_role b)
                && isRole (default ""%string (body_role b)) = false).
    { destruct Hbad as [H|[H|H]].
      - apply truthy_false in H. now rewrite H.
      - apply truthy_false in H. rewrite H. now rewrite andb_false_r.
      - destruct (body_role b) as [r|]; [|now rewrite andb_false_r].
        destruct (H r eq_refl) as [H1 H2]. cbn [default from_option id].
        destruct (isRole r) eqn:Er; [|now rewrite andb_false_r].
        apply isRole_true in Er. tauto. }
    rewrite E. cbn [fst snd status body]. repeat split. eauto.
  - intros uid r Eu Hu Er Hr. rewrite Eu, Er.
    assert (E : JS.truthy (Some uid) && JS.truthy (Some r)
                && isRole (default ""%string (Some r)) = true).
    { change (default ""%string (Some r)) with r.
      rewrite (proj2 (isRole_true r) Hr), andb_true_r.
      unfold JS.truthy. apply andb_true_iff. rewrite !negb_true_iff, !String.eqb_neq.
      split; [exact Hu|]. destruct Hr as [-> | ->]; discriminate. }
    rewrite E. cbn [fst snd default from_option id].
    split; [reflexivity|]. split; [|split; [|split; [|split]]].
    + intros m Hm. rewrite memberRow_updateRole, Hm. cbn [option_map].
      now rewrite String.eqb_refl.
    + intros Hnone. unfold Sql.updateRole.
      rewrite map_role_absent by (apply findRow_none; exact Hnone). now destruct db.
    + intros v Hv. rewrite memberRow_updateRole.
      replace (String.eqb v uid) with false by (symmetry; now apply String.eqb_neq).
      now destruct (memberRow v db).
    + reflexivity.
    + reflexivity.
Qed.

Lemma role_update_contract_witness :
  snd (postRole (Some (mkRoleBody (Some "u2"%string) (Some "Scout"%string))) Example.db4)
    = mkResponse 400 (JObj [("error"%string,
                             JStr "Provide userId and role in {Raider, Reserve}")]) /\
  fst (postRole (Some (mkRoleBody (Some "u2"%string) (Some "Scout"%string))) Example.db4)
    = Example.db4 /\
  option_map role (memberRow "u2" Example.dbReserve) = Some "Reserve"%string.
Proof.
  destruct (role_update_contract
              (Some (mkRoleBody (Some "u2"%string) (Some "Scout"%string))) Example.db4)
    as [Hbad _].
  destruct Hbad as (H1 & _ & _).
  { right. right. cbn. intros r [= <-]. split; discriminate. }
  split; [reflexivity|]. split; [exact H1|].
  destruct (role_update_contract
              (Some (mkRoleBody (Some "u2"%string) (Some "Reserve"%string))) Example.db4)
    as [_ Hok].
  destruct (Hok "u2"%string "Reserve"%string eq_refl ltac:(discriminate) eq_refl
              ltac:(now right)) as (_ & Hset & _).
  unfold Example.dbReserve.
  rewrite (Hset (mkMember "u2" "bob" "Raider" Example.t1 Example.t3)); [reflexivity|].
  vm_compute. reflexivity.
Defined.

(** C8 as stated fails: a well-formed request for a member the table does
    not have is answered 200, not refused. *)
Lemma role_update_unknown_member_succeeds :
  ~ (forall db uid r,
       r = "Raider"%string \/ r = "Reserve"%string -> uid <> ""%string ->
       memberRow uid db = None ->
       status (snd (postRole (Some (mkRoleBody (Some uid) (Some r))) db)) <> 200).
Proof.
  intros H.
  apply (H emptyStore "u9"%string "Reserve"%string); [now right|discriminate|reflexivity|].
  reflexivity.
Qed.

(** *** The summary request *)

Lemma orElse_empty o : JS.orElse o "" = default ""%string o.
Proof.
  destruct o as [s|]; [|reflexivity]. cbn.
  destruct (String.eqb_spec s ""); [now subst|reflexivity].
Qed.

(** C9, as the code has it. A month parameter that is absent, empty or
    only white space gives the report of the current month; any other
    value is trimmed and used as the month without being checked against
    YYYY-MM, and the report carries it back in its [ym] field. *)
Theorem summary_month_parameter parseRest toEpochMs today g c db :
  (forall month,
     JS.trim (default ""%string month) = ""%string ->
     getSummary parseRest toEpochMs today g c month db
     = getSummary parseRest toEpochMs today g c None db) /\
  ym (summaryPayload parseRest toEpochMs today g c None db) = formatYM (DateOf today) /\
  (forall s,
     JS.trim s <> ""%string ->
     getSummary parseRest toEpochMs today g c (Some s) db
     = mkResponse 200
         (Json.ofPayload (summaryPayload parseRest toEpochMs today g c (Some (JS.trim s)) db))
     /\ ym (summaryPayload parseRest toEpochMs today g c (Some (JS.trim s)) db) = JS.trim s).
Proof.
  split; [|split].
  - intros month Hm. unfold getSummary. rewrite !orElse_empty, Hm. reflexivity.
  - reflexivity.
  - intros s Hs. unfold getSummary. rewrite orElse_empty. cbn [default from_option id].
    destruct (String.eqb_spec (JS.trim s) ""); [contradiction|].
    split; [reflexivity|]. unfold summaryPayload. cbn [ym]. unfold JS.orElse.
    destruct (String.eqb_spec (JS.trim s) ""); [contradiction|reflexivity].
Qed.

Lemma summary_month_parameter_witness :
  getSummary Example.strict Example.utc Example.today "g" "c" (Some "  "%string) Example.db4
  = getSummary Example.strict Example.utc Example.today "g" "c" None Example.db4 /\
  ym (summaryPayload Example.strict Example.utc Example.today "g" "c"
        (Some (JS.trim " 2024-13 ")) Example.db4) = "2024-13"%string.
Proof.
  destruct (summary_month_parameter Example.strict Example.utc Example.today "g" "c"
              Example.db4) as (H1 & _ & H3).
  split.
  - apply H1. reflexivity.
  - destruct (H3 " 2024-13 "%string) as [_ H]; [discriminate|]. exact H.
Defined.

(** C9 as stated fails: a value that is not of the form YYYY-MM is not
    treated as absent. *)
Lemma summary_malformed_month_not_absent :
  ~ (forall month,
       matchesYM month = false ->
       getSummary Example.strict Example.utc Example.today "g" "c" (Some month) emptyStore
       = getSummary Example.strict Example.utc Example.today "g" "c" None emptyStore).
Proof.
  intros H. specialize (H "abc"%string eq_refl). vm_compute in H. discriminate H.
Qed.

(** * Further properties *)

(** ** Further properties of the sampling cycle *)

Lemma runCycle_outcome db cy :
  runCycle db cy
  = if commits cy
    then match cy_fetched cy with
         | Voice ms => recorded (cy_guild cy) (cy_channel cy) ms (cy_now cy) db
         | _ => db
         end
    else db.
Proof.
  unfold runCycle, commits. destruct (cy_fetched cy) as [| |ms]; [reflexivity|reflexivity|].
  rewrite sampleVoiceChannel_outcome. now destruct (existsb _ _).
Qed.

Lemma nextSnapshotId_above db s : In s (snapshots db) -> snap_id s < nextSnapshotId db.
Proof. intros H. apply maxRowid_ge in H. unfold nextSnapshotId. lia. Qed.

(** X1. A cycle that does not write (the fetch throws, the channel is not
    a voice channel, or the engine refuses a statement) leaves the store
    as it was; a cycle that writes appends exactly one snapshot, with an id
    above every id of the table, also when the channel is empty. *)
Theorem cycle_skips_or_appends db cy :
  (commits cy = false -> runCycle db cy = db) /\
  (commits cy = true ->
     snapshots (runCycle db cy) = snapshots db ++ [snapshotOf db cy] /\
     (forall s, In s (snapshots db) -> snap_id s < snap_id (snapshotOf db cy)) /\
     (occupants cy = [] ->
        members (runCycle db cy) = members db /\
        presence (runCycle db cy) = presence db)).
Proof.
  rewrite runCycle_outcome. split; intros Hc; rewrite Hc; [reflexivity|].
  unfold commits, occupants, snapshotOf in *.
  destruct (cy_fetched cy) as [| |ms]; try discriminate.
  split; [apply recorded_snapshots|]. split; [intros s; apply nextSnapshotId_above|].
  intros Hempty. destruct ms; [|discriminate]. split; reflexivity.
Qed.

Lemma cycle_skips_or_appends_witness :
  runCycle Example.db4 (mkCycle "g" "c" NotVoice Example.t3 noFault) = Example.db4 /\
  runCycle Example.db4 (mkCycle "g" "c" (Voice [Example.bob]) Example.t3 (fun k => Nat.eqb k 2))
    = Example.db4 /\
  snapshots (runCycle Example.db4 (Example.cycle [] (Example.hourly 9)))
    = snapshots Example.db4 ++ [mkSnapshot 5 (Example.hourly 9) "g" "c"] /\
  presence (runCycle Example.db4 (Example.cycle [] (Example.hourly 9)))
    = presence Example.db4.
Proof.
  split; [|split; [|split]].
  - apply (cycle_skips_or_appends Example.db4). reflexivity.
  - apply (cycle_skips_or_appends Example.db4). reflexivity.
  - destruct (cycle_skips_or_appends Example.db4 (Example.cycle [] (Example.hourly 9)))
      as [_ H]. destruct (H eq_refl) as [H1 _]. rewrite H1. reflexivity.
  - destruct (cycle_skips_or_appends Example.db4 (Example.cycle [] (Example.hourly 9)))
      as [_ H]. destruct (H eq_refl) as (_ & _ & H3). now destruct (H3 eq_refl).
Defined.

Lemma findRow_app_r uid M N :
  findRow uid M = None -> findRow uid (M ++ N) = findRow uid N.
Proof.
  induction M as [|x M IH]; [reflexivity|]. cbn [app findRow List.find].
  destruct (String.eqb (user_id x) uid); [discriminate|exact IH].
Qed.

Lemma findRow_holds uid M : holds uid M = true -> exists m, findRow uid M = Some m.
Proof.
  intros H. destruct (findRow uid M) eqn:E; [eauto|].
  apply findRow_none in E. congruence.
Qed.

Lemma findRow_U_new t M x uid :
  findRow uid M = None ->
  findRow uid (U t M x)
  = if String.eqb (gm_user_id x) uid
    then Some (mkMember uid (displayNameOf x) "Raider" t t) else None.
Proof.
  intros Hn. unfold U, upserted. fold (holds (gm_user_id x) M).
  destruct (String.eqb_spec (gm_user_id x) uid) as [E|E].
  - rewrite E, (findRow_none _ _ Hn). rewrite findRow_app_r by exact Hn.
    cbn. now rewrite String.eqb_refl.
  - destruct (holds (gm_user_id x) M).
    + rewrite findRow_map, Hn; [reflexivity|].
      intros m. now destruct (String.eqb (user_id m) (gm_user_id x)).
    + rewrite findRow_app_r by exact Hn. cbn.
      now apply String.eqb_neq in E as ->.
Qed.

Lemma findRow_fold_new t ms M uid :
  findRow uid M = None ->
  findRow uid (fold_left (U t) ms M)
  = option_map (fun gm => mkMember uid (displayNameOf gm) "Raider" t t)
               (lastSeenAs uid ms).
Proof.
  intros Hn. induction ms as [|x ms IH] using rev_ind; [exact Hn|].
  rewrite fold_left_app, lastSeenAs_snoc. cbn [fold_left].
  destruct (lastSeenAs uid ms) as [gm|] eqn:El; cbn [option_map] in IH.
  - rewrite (findRow_U _ _ _ _ _ IH).
    destruct (String.eqb (gm_user_id x) uid); reflexivity.
  - rewrite (findRow_U_new _ _ _ _ IH).
    destruct (String.eqb (gm_user_id x) uid); reflexivity.
Qed.

(** X2. A member the table does not have yet and a committed cycle
    observes is added as a Raider, first and last seen at the time of the
    cycle, under the name observed last; a member it does not observe is
    not added. *)
Theorem new_member_defaults g c ms t fault db uid :
  memberRow uid db = None ->
  existsb fault (seq 0 (statements ms)) = false ->
  memberRow uid (fst (sampleVoiceChannel g c (Voice ms) t fault db))
  = option_map (fun gm => mkMember uid (displayNameOf gm) "Raider" t t)
               (lastSeenAs uid ms).
Proof.
  intros Hn Hf. rewrite sampleVoiceChannel_outcome, Hf. cbn [fst].
  unfold memberRow. rewrite recorded_members. now apply findRow_fold_new.
Qed.

Lemma new_member_defaults_witness :
  memberRow "u2" (fst (sampleVoiceChannel "g" "c" (Voice [Example.ann; Example.bob])
                         Example.t1 noFault emptyStore))
  = Some (mkMember "u2" "bob" "Raider" Example.t1 Example.t1).
Proof.
  apply (new_member_defaults "g" "c" [Example.ann; Example.bob] Example.t1 noFault
           emptyStore "u2"); reflexivity.
Defined.

(** *** Presence rows and their members *)

Lemma holds_fold t ms M uid :
  holds uid M = true \/ In uid (idsOf ms) -> holds uid (fold_left (U t) ms M) = true.
Proof.
  revert M. induction ms as [|x ms IH]; intros M H.
  - destruct H as [H|[]]. exact H.
  - cbn [fold_left]. apply IH. cbn [idsOf List.map In] in H. rewrite holds_U.
    destruct H as [H|[H|H]].
    + left. now rewrite H.
    + left. rewrite H, String.eqb_refl. now destruct (holds uid M).
    + now right.
Qed.

Lemma presenceHasMember_recorded g c ms t db :
  schemaOk db -> presenceHasMember db -> presenceHasMember (recorded g c ms t db).
Proof.
  intros Hok Hp. unfold presenceHasMember in *. rewrite recorded_presence by exact Hok.
  rewrite Forall_forall in Hp. apply Forall_forall. intros p Hin.
  unfold Sql.hasMember. rewrite recorded_members. fold (holds (p_user_id p) (fold_left (U t) ms (members db))).
  apply holds_fold. apply list_elem_of_In, in_app_or in Hin as [Hin|Hin].
  - left. apply Hp. now apply list_elem_of_In.
  - right. apply in_map_iff in Hin as (u & <- & Hu). cbn. now apply dedup_ids.
Qed.

Lemma presenceHasMember_reachable db : reachable db -> presenceHasMember db.
Proof.
  induction 1 as [|db cy Hr IH|db b Hr IH].
  - constructor.
  - rewrite runCycle_outcome. destruct (commits cy); [|exact IH].
    destruct (cy_fetched cy); try exact IH.
    apply presenceHasMember_recorded; [now apply reachable_schemaOk|exact IH].
  - unfold postRole. case_match; [|exact IH]. cbn [fst].
    unfold presenceHasMember, Sql.hasMember in *. cbn [presence].
    eapply Forall_impl; [exact IH|]. intros p Hp. cbn beta in *.
    fold (holds (p_user_id p) (members db)) in Hp.
    fold (holds (p_user_id p) (members (Sql.updateRole (default ""%string (body_role (default (mkRoleBody None None) b)))
                 (default ""%string (body_userId (default (mkRoleBody None None) b))) db))).
    apply holds_true. rewrite updateRole_ids. now apply holds_true.
Qed.

(** X3. In every store the program can reach, the keys of the three
    tables are unique and every presence row refers to a snapshot and to a
    member that exist. *)
Theorem reachable_store_consistent db :
  reachable db ->
  NoDup (List.map user_id (members db)) /\
  NoDup (List.map snap_id (snapshots db)) /\
  NoDup (presence db) /\
  (forall p, In p (presence db) ->
     (exists s, In s (snapshots db) /\ snap_id s = snapshot_id p) /\
     (exists m, memberRow (p_user_id p) db = Some m)).
Proof.
  intros Hr. pose proof (presenceHasMember_reachable db Hr) as Hm.
  destruct (reachable_schemaOk db Hr) as [H1 H2 H3 H4].
  split; [exact H1|]. split; [exact H2|]. split; [exact H3|].
  intros p Hp. unfold presenceHasMember in Hm. rewrite Forall_forall in H4, Hm.
  apply list_elem_of_In in Hp. split.
  - specialize (H4 p Hp). cbn beta in H4. apply hasSnapshot_true, in_map_iff in H4.
    destruct H4 as (s & E & Hs). eauto.
  - apply findRow_holds. exact (Hm p Hp).
Qed.

Lemma reachable_store_consistent_witness :
  reachable Example.db4 /\
  exists m, memberRow "u3" Example.db4 = Some m.
Proof.
  assert (H : reachable Example.db4).
  { unfold Example.db4. apply reachable_runCycles. exact reach_empty. }
  split; [exact H|].
  destruct (reachable_store_consistent Example.db4 H) as (_ & _ & _ & Hp).
  destruct (Hp (mkPresence 4 "u3")) as [_ Hm]; [|exact Hm].
  vm_compute. do 5 right. left. reflexivity.
Defined.

(** ** What a cycle adds to the counts *)

Section Accounting.

Variable u : string.
Variable R : SnapshotRow -> bool.

Lemma joinCount_app P P' S :
  joinCount u R (P ++ P') S = (joinCount u R P S + joinCount u R P' S)%nat.
Proof.
  unfold joinCount. now rewrite flat_map_app, List.filter_app, List.length_app.
Qed.

Lemma joinCount_snoc P S s :
  joinCount u R P (S ++ [s]) = (joinCount u R P S + length (List.filter (hitsOf u R s) P))%nat.
Proof.
  unfold joinCount. induction P as [|p P IH]; [reflexivity|].
  cbn [flat_map]. rewrite !(List.filter_app (String.eqb u)), !List.length_app, IH.
  rewrite !countOf_const, List.filter_app, List.length_app.
  cbn [List.filter]. unfold hitsOf at 2.
  destruct (String.eqb u (p_user_id p)); cbn [andb].
  - destruct ((snap_id s =? snapshot_id p) && R s); cbn [length]; lia.
  - lia.
Qed.

Lemma hitsOf_none s P :
  (forall p, In p P -> snapshot_id p <> snap_id s) ->
  length (List.filter (hitsOf u R s) P) = 0%nat.
Proof.
  intros H. rewrite filter_none; [reflexivity|]. intros p Hp. unfold hitsOf.
  replace (snap_id s =? snapshot_id p) with false.
  - now rewrite andb_false_r.
  - symmetry. apply Z.eqb_neq. intros E. now apply (H p Hp).
Qed.

Lemma joinCount_none P S :
  (forall p s, In p P -> In s S -> snap_id s <> snapshot_id p) -> joinCount u R P S = 0%nat.
Proof.
  intros H. unfold joinCount. induction P as [|p P IH]; [reflexivity|].
  cbn [flat_map]. rewrite List.filter_app, List.length_app, countOf_const.
  rewrite (filter_none _ S).
  - rewrite IH; [now destruct (String.eqb u (p_user_id p))|].
    intros q s Hq. apply H. now right.
  - intros s Hs. replace (snap_id s =? snapshot_id p) with false; [reflexivity|].
    symmetry. apply Z.eqb_neq. apply H; [now left|exact Hs].
Qed.

Lemma count_NoDup D :
  NoDup D ->
  length (List.filter (String.eqb u) D) = if existsb (String.eqb u) D then 1%nat else 0%nat.
Proof.
  intros Hnd. destruct (existsb (String.eqb u) D) eqn:E.
  - apply existsb_exists in E as (x & Hx & Ex). apply String.eqb_eq in Ex. subst x.
    apply (filter_key_eq_1 _ u); [exact Hnd|exact Hx|].
    intros x. rewrite String.eqb_eq. split; intros; now subst.
  - rewrite filter_none; [reflexivity|]. intros x Hx.
    destruct (String.eqb u x) eqn:Ex; [|reflexivity].
    exfalso. apply Bool.not_true_iff_false in E. apply E, existsb_exists. eauto.
Qed.

Lemma hitsOf_new s D :
  NoDup D ->
  length (List.filter (hitsOf u R s) (List.map (mkPresence (snap_id s)) D))
  = if R s && existsb (String.eqb u) D then 1%nat else 0%nat.
Proof.
  intros Hnd. rewrite <- (length_map p_user_id).
  assert (E : List.map p_user_id (List.filter (hitsOf u R s) (List.map (mkPresence (snap_id s)) D))
              = List.filter (fun v => String.eqb u v && R s) D).
  { clear Hnd. induction D as [|v D IH]; [reflexivity|].
    cbn [List.map List.filter]. unfold hitsOf at 1. cbn [p_user_id snapshot_id].
    rewrite Z.eqb_refl, andb_true_r.
    destruct (String.eqb u v && R s); cbn [List.map]; now rewrite IH. }
  rewrite E. destruct (R s); cbn [andb].
  - erewrite filter_ext; [now apply count_NoDup|]. intros v. now rewrite andb_true_r.
  - rewrite filter_none; [reflexivity|]. intros v _. now rewrite andb_false_r.
Qed.

End Accounting.

Lemma existsb_dedup u ms :
  existsb (String.eqb u) (idsOf (dedupOccupants ms)) = existsb (String.eqb u) (idsOf ms).
Proof.
  apply eq_true_iff_eq. rewrite !existsb_exists.
  split; intros (x & Hx & E); exists x; (split; [|exact E]); now apply dedup_ids.
Qed.

Lemma recorded_counts lo hi c g g' c' ms t db u :
  schemaOk db ->
  let new := mkSnapshot (nextSnapshotId db) t g' c' in
  qTotalSnapshotsInRange lo hi c g (recorded g' c' ms t db)
    = qTotalSnapshotsInRange lo hi c g db + (if inRange lo hi c g new then 1 else 0) /\
  countOf u (joined lo hi c g (recorded g' c' ms t db))
    = countOf u (joined lo hi c g db)
      + (if inRange lo hi c g new && existsb (String.eqb u) (idsOf ms) then 1 else 0).
Proof.
  intros Hok new. split.
  - unfold qTotalSnapshotsInRange. rewrite recorded_snapshots. fold new.
    rewrite List.filter_app, List.length_app. cbn [List.filter].
    destruct (inRange lo hi c g new); cbn [length]; lia.
  - unfold countOf, joined. fold (joinCount u (inRange lo hi c g)).
    change (Z.of_nat (joinCount u (inRange lo hi c g) (presence (recorded g' c' ms t db))
                        (snapshots (recorded g' c' ms t db)))
            = Z.of_nat (joinCount u (inRange lo hi c g) (presence db) (snapshots db))
              + (if inRange lo hi c g new && existsb (String.eqb u) (idsOf ms) then 1 else 0)).
    rewrite recorded_snapshots, recorded_presence by exact Hok. fold new.
    rewrite joinCount_app, !joinCount_snoc.
    rewrite (hitsOf_none u _ new (presence db)).
    + rewrite (joinCount_none u _ (List.map _ _) (snapshots db)).
      * change (nextSnapshotId db) with (snap_id new).
        rewrite hitsOf_new by apply dedup_NoDup. rewrite existsb_dedup.
        destruct (inRange lo hi c g new && existsb (String.eqb u) (idsOf ms)); lia.
      * intros p s Hp Hs E. apply in_map_iff in Hp as (v & <- & _). cbn in E.
        apply (nextSnapshotId_fresh db). rewrite <- E. now apply in_map.
    + intros p Hp E. destruct Hok as [_ _ _ Hf]. rewrite Forall_forall in Hf.
      apply list_elem_of_In, Hf in Hp. cbn beta in Hp. apply hasSnapshot_true in Hp.
      rewrite E in Hp. now apply nextSnapshotId_fresh in Hp.
Qed.

Lemma countsIn_inRange lo hi c g db cy :
  commits cy = true ->
  inRange lo hi c g (snapshotOf db cy) = countsIn lo hi c g cy.
Proof.
  intros Hc. unfold countsIn, inRange, snapshotOf. rewrite Hc. reflexivity.
Qed.

Lemma runCycle_total lo hi c g db cy :
  qTotalSnapshotsInRange lo hi c g (runCycle db cy)
  = qTotalSnapshotsInRange lo hi c g db + (if countsIn lo hi c g cy then 1 else 0).
Proof.
  rewrite runCycle_outcome. destruct (commits cy) eqn:Hc.
  - rewrite <- (countsIn_inRange lo hi c g db cy Hc). unfold snapshotOf.
    unfold commits in Hc. destruct (cy_fetched cy) as [| |ms]; try discriminate.
    unfold qTotalSnapshotsInRange. rewrite recorded_snapshots.
    rewrite List.filter_app, List.length_app. cbn [List.filter].
    destruct (inRange lo hi c g _); cbn [length]; lia.
  - unfold countsIn. rewrite Hc. cbn [andb]. lia.
Qed.

Lemma runCycle_present lo hi c g db cy u :
  schemaOk db ->
  countOf u (joined lo hi c g (runCycle db cy))
  = countOf u (joined lo hi c g db)
    + (if countsIn lo hi c g cy && sees u cy then 1 else 0).
Proof.
  intros Hok. rewrite runCycle_outcome. destruct (commits cy) eqn:Hc.
  - rewrite <- (countsIn_inRange lo hi c g db cy Hc). unfold sees, occupants, snapshotOf.
    unfold commits in Hc. destruct (cy_fetched cy) as [| |ms]; try discriminate.
    now apply recorded_counts.
  - unfold countsIn. rewrite Hc. cbn [andb]. lia.
Qed.

(** X4. What one cycle adds, for any range, channel and guild: the total
    of the range grows by one exactly when the cycle writes and its
    snapshot lies in the range and carries that channel and guild; the
    present count of a member grows by one exactly when, in addition, the
    cycle observed the member, however often it lists the member. *)
Theorem cycle_accounting lo hi c g db cy :
  schemaOk db ->
  qTotalSnapshotsInRange lo hi c g (runCycle db cy)
    = qTotalSnapshotsInRange lo hi c g db + (if countsIn lo hi c g cy then 1 else 0) /\
  forall u,
    countOf u (joined lo hi c g (runCycle db cy))
    = countOf u (joined lo hi c g db)
      + (if countsIn lo hi c g cy && sees u cy then 1 else 0).
Proof.
  intros Hok. split.
  - apply runCycle_total.
  - intros u. now apply runCycle_present.
Qed.

Lemma cycle_accounting_witness :
  schemaOk emptyStore /\
  qTotalSnapshotsInRange (Some 1719792000000) (Some 1722470399999) "c" "g"
    (runCycle emptyStore (Example.cycle [Example.ann; Example.annAgain] Example.t1)) = 1 /\
  countOf "u1" (joined (Some 1719792000000) (Some 1722470399999) "c" "g"
    (runCycle emptyStore (Example.cycle [Example.ann; Example.annAgain] Example.t1))) = 1 /\
  countOf "u2" (joined (Some 1719792000000) (Some 1722470399999) "c" "g"
    (runCycle emptyStore (Example.cycle [Example.ann; Example.annAgain] Example.t1))) = 0.
Proof.
  split; [apply schemaOk_empty|].
  destruct (cycle_accounting (Some 1719792000000) (Some 1722470399999) "c" "g" emptyStore
              (Example.cycle [Example.ann; Example.annAgain] Example.t1) schemaOk_empty)
    as [H1 H2].
  split; [rewrite H1; reflexivity|]. split; rewrite H2; reflexivity.
Defined.

Lemma schemaOk_runCycles cs db : schemaOk db -> schemaOk (runCycles cs db).
Proof.
  revert db. induction cs as [|cy cs IH]; intros db H; [exact H|].
  cbn [runCycles fold_left]. apply IH. now apply schemaOk_runCycle.
Qed.

(** X5. After any sequence of cycles the total of a range has grown by
    the number of cycles that wrote a snapshot of the range for that
    channel and guild, and a member's present count by the number of those
    that observed the member. *)
Theorem counts_follow_cycles lo hi c g cs db :
  schemaOk db ->
  qTotalSnapshotsInRange lo hi c g (runCycles cs db)
    = qTotalSnapshotsInRange lo hi c g db
      + Z.of_nat (length (List.filter (countsIn lo hi c g) cs)) /\
  forall u,
    countOf u (joined lo hi c g (runCycles cs db))
    = countOf u (joined lo hi c g db)
      + Z.of_nat (length (List.filter (fun cy => countsIn lo hi c g cy && sees u cy) cs)).
Proof.
  revert db. induction cs as [|cy cs IH]; intros db Hok.
  - cbn. split; [|intros u]; lia.
  - cbn [runCycles fold_left]. fold (runCycles cs (runCycle db cy)).
    destruct (IH (runCycle db cy) (schemaOk_runCycle db cy Hok)) as [IH1 IH2].
    split; [|intros u]; cbn [List.filter].
    + rewrite IH1, runCycle_total.
      destruct (countsIn lo hi c g cy); cbn [length]; lia.
    + rewrite IH2, runCycle_present by exact Hok.
      destruct (countsIn lo hi c g cy && sees u cy); cbn [length]; lia.
Qed.

Lemma counts_follow_cycles_witness :
  schemaOk emptyStore /\
  qTotalSnapshotsInRange (Some 1719792000000) (Some 1722470399999) "c" "g" Example.db10 = 10 /\
  countOf "u1" (joined (Some 1719792000000) (Some 1722470399999) "c" "g" Example.db10) = 6.
Proof.
  split; [apply schemaOk_empty|]. unfold Example.db10.
  match goal with |- context [runCycles ?cs emptyStore] =>
    destruct (counts_follow_cycles (Some 1719792000000) (Some 1722470399999) "c" "g" cs
                emptyStore schemaOk_empty) as [H1 H2]
  end.
  split; [rewrite H1|rewrite H2]; vm_compute; reflexivity.
Defined.

(** ** Further properties of the queries and of the report *)

Lemma countOf_pos u l : In u l <-> 0 < countOf u l.
Proof.
  split.
  - intros Hin. unfold countOf.
    assert (H : In u (List.filter (String.eqb u) l))
      by (apply filter_In; split; [exact Hin|apply String.eqb_refl]).
    destruct (List.filter (String.eqb u) l); [destruct H|cbn [length]; lia].
  - intros Hpos. destruct (in_dec string_dec u l) as [H|H]; [exact H|].
    rewrite countOf_absent in Hpos by exact H. lia.
Qed.

Lemma in_groups u l : In u (remove_dups l) <-> 0 < countOf u l.
Proof.
  rewrite <- countOf_pos, <- !list_elem_of_In. apply elem_of_remove_dups.
Qed.

(** X6. The grouped query returns one row per member with at least one
    presence row in the range, carrying the member's count; a member
    without one has no row, and the report reads 0 for it. *)
Theorem presence_counts_rows lo hi c g db :
  NoDup (List.map fst (qPresenceCountsInRange lo hi c g db)) /\
  (forall u n,
     In (u, n) (qPresenceCountsInRange lo hi c g db)
     <-> n = countOf u (joined lo hi c g db) /\ 1 <= n) /\
  (forall u,
     newMap (qPresenceCountsInRange lo hi c g db) !! u
     = if 0 <? countOf u (joined lo hi c g db)
       then Some (countOf u (joined lo hi c g db)) else None).
Proof.
  unfold qPresenceCountsInRange. set (j := joined lo hi c g db).
  assert (Hkeys : List.map fst (List.map (fun v => (v, countOf v j)) (remove_dups j))
                  = remove_dups j).
  { rewrite map_map. cbn. apply map_id. }
  split; [|split].
  - rewrite Hkeys. apply NoDup_remove_dups.
  - intros u n. rewrite in_map_iff. split.
    + intros (v & [= <- <-] & Hv). apply in_groups in Hv.
      split; [reflexivity|lia].
    + intros [-> Hn]. exists u. split; [reflexivity|]. apply in_groups. lia.
  - intros u. pose proof (presentMap_lookup lo hi c g db u) as Hl.
    unfold qPresenceCountsInRange in Hl. fold j in Hl.
    destruct (Z.ltb_spec 0 (countOf u j)) as [Hpos|Hz].
    + unfold newMap. apply elem_of_list_to_map_1.
      * rewrite fmap_reverse, reverse_Permutation.
        change (NoDup (List.map fst (List.map (fun v => (v, countOf v j)) (remove_dups j)))).
        rewrite Hkeys. apply NoDup_remove_dups.
      * apply elem_of_reverse, list_elem_of_In, in_map_iff. exists u. split; [reflexivity|].
        now apply in_groups.
    + unfold newMap. apply not_elem_of_list_to_map_1.
      rewrite fmap_reverse, elem_of_reverse.
      change (u ∉ List.map fst (List.map (fun v => (v, countOf v j)) (remove_dups j))).
      rewrite Hkeys. intros H. apply list_elem_of_In, in_groups in H. lia.
Qed.

Lemma rowOf_fields month monthPrev this last m :
  let r := rowOf month monthPrev this last m in
  userId r = user_id m /\
  name r = (if String.eqb (display_name m) "" then user_id m else display_name m) /\
  row_role r = (if String.eqb (role m) "" then "Raider"%string else role m) /\
  cell_ym (thisMonth r) = month /\ cell_ym (lastMonth r) = monthPrev /\
  cell_total (thisMonth r) = total this /\ cell_total (lastMonth r) = total last.
Proof. cbn. repeat split. Qed.

(** X7. A report has exactly one row per member of the roster; the row
    shows the display name, or the member id when the name is empty, the
    role, or Raider when it is empty, and the totals and month texts of
    the report. *)
Theorem report_roster parseRest toEpochMs today g c ymCurrent db :
  let P := summaryPayload parseRest toEpochMs today g c ymCurrent db in
  Permutation (List.map userId (rows P)) (List.map user_id (members db)) /\
  forall r, In r (rows P) ->
    exists m, In m (members db) /\ userId r = user_id m /\
      name r = (if String.eqb (display_name m) "" then user_id m else display_name m) /\
      row_role r = (if String.eqb (role m) "" then "Raider"%string else role m) /\
      cell_ym (thisMonth r) = ym P /\ cell_ym (lastMonth r) = ymPrev P /\
      cell_total (thisMonth r) = totals_thisMonth P /\
      cell_total (lastMonth r) = totals_lastMonth P.
Proof.
  intros P. split.
  - unfold P, summaryPayload. cbn [rows]. rewrite sortRows_perm, map_map. reflexivity.
  - intros r Hin. destruct (rows_of_summary _ _ _ _ _ _ _ _ Hin) as (m & Hm & E).
    exists m. split; [exact Hm|]. rewrite E. apply rowOf_fields.
Qed.

(** *** The sort keeps the roster order of equal percentages *)

Lemma sameKey_trans_false r x y :
  sameKey r x = true -> sameKey r y = true -> byPctDesc x y.
Proof.
  unfold sameKey. intros Hx Hy. apply Qeq_bool_iff in Hx, Hy. apply byPctDesc_le.
  rewrite <- Hx, <- Hy. apply Qle_refl.
Qed.

Lemma filter_insertRow r x l :
  List.filter (sameKey r) (insertRow x l)
  = if sameKey r x then x :: List.filter (sameKey r) l else List.filter (sameKey r) l.
Proof.
  induction l as [|y l IH]; [cbn; now destruct (sameKey r x)|].
  cbn [insertRow]. destruct (decide (byPctDesc x y)) as [Hxy|Hxy].
  - cbn [List.filter]. reflexivity.
  - cbn [List.filter]. rewrite IH.
    destruct (sameKey r x) eqn:Ex, (sameKey r y) eqn:Ey; try reflexivity.
    exfalso. apply Hxy. eapply sameKey_trans_false; eassumption.
Qed.

(** X8. The sort is stable: the rows that share a percentage (or share
    the lack of one) stand in the report in the order of the roster. *)
Theorem ranking_keeps_roster_order :
  (forall l r, List.filter (sameKey r) (sortRows l) = List.filter (sameKey r) l) /\
  (forall parseRest toEpochMs today g c ymCurrent db r,
     let P := summaryPayload parseRest toEpochMs today g c ymCurrent db in
     List.map userId (List.filter (sameKey r) (rows P))
     = List.map user_id
         (List.filter
            (fun m => sameKey r
               (rowOf (ym P) (ymPrev P)
                  (computeAttendance parseRest toEpochMs today g c (Some (ym P)) db)
                  (computeAttendance parseRest toEpochMs today g c (Some (ymPrev P)) db) m))
            (members db))).
Proof.
  assert (H : forall l r, List.filter (sameKey r) (sortRows l) = List.filter (sameKey r) l).
  { intros l r. induction l as [|x l IH]; [reflexivity|].
    cbn [sortRows foldr]. fold (sortRows l). rewrite filter_insertRow, IH. reflexivity. }
  split; [exact H|].
  intros pr te td g c ymc db r P. unfold P at 1, summaryPayload at 1. cbn [rows].
  rewrite H. fold P. unfold qMembers.
  induction (members db) as [|m M IH]; [reflexivity|].
  cbn [List.map List.filter]. destruct (sameKey r _); cbn [List.map]; now rewrite IH.
Qed.

(** *** Thresholds *)

Lemma in_below50 parseRest toEpochMs today g c ymCurrent db r :
  let P := summaryPayload parseRest toEpochMs today g c ymCurrent db in
  In r (rows P) -> under50 (flags r) = true -> In (name r) (below50 P).
Proof.
  intros P Hin Hu. unfold P, summaryPayload. cbn [below50].
  apply in_map, filter_In. split; [exact Hin|exact Hu].
Qed.

(** X9. In a month with at least one snapshot, a member who was never
    present has the percentage 0, not null, carries both flags and is
    listed in [below50]. *)
Theorem absent_member_is_zero parseRest toEpochMs today g c ymCurrent db r :
  let P := summaryPayload parseRest toEpochMs today g c ymCurrent db in
  In r (rows P) ->
  0 < cell_total (thisMonth r) -> present (thisMonth r) = 0 ->
  pct (thisMonth r) = Some (0 # Z.to_pos (cell_total (thisMonth r)))%Q /\
  under50 (flags r) = true /\ under75 (flags r) = true /\
  In (name r) (below50 P) /\ ~ In r (List.filter (fun x => under75 (flags x) && negb (under50 (flags x))) (rows P)).
Proof.
  intros P Hin Ht Hp.
  destruct (pct_cells _ _ _ _ _ _ _ _ Hin) as [(_ & _ & Hpct & _) _].
  specialize (Hpct Ht). rewrite Hp in Hpct.
  assert (Hf : under50 (flags r) = true /\ under75 (flags r) = true).
  { destruct (rows_of_summary _ _ _ _ _ _ _ _ Hin) as (m & _ & E).
    rewrite E in Hpct |- *. unfold rowOf in *. cbn [thisMonth pct flags under50 under75] in *.
    rewrite Hpct. split; reflexivity. }
  destruct Hf as [H50 H75]. split; [exact Hpct|]. split; [exact H50|]. split; [exact H75|].
  split; [now apply in_below50|].
  intros H. apply filter_In in H as [_ H]. rewrite H50 in H. now rewrite andb_false_r in H.
Qed.

Lemma absent_member_is_zero_witness :
  exists r,
    In r (rows (summaryPayload Example.strict Example.utc Example.today "g" "c"
                  (Some "2024-06"%string) Example.db4)) /\
    name r = "bob"%string /\ pct (thisMonth r) = Some (0 # 1)%Q /\
    under50 (flags r) = true.
Proof.
  set (r := mkRow "u2" "bob" "Raider" (mkCell "2024-06" 0 1 (Some (0 # 1)%Q))
              (mkCell "2024-05" 0 0 None) (mkFlags true true)).
  assert (Hin : In r (rows (summaryPayload Example.strict Example.utc Example.today
                              "g" "c" (Some "2024-06"%string) Example.db4))).
  { vm_compute. right; right; left. reflexivity. }
  exists r. split; [exact Hin|]. split; [reflexivity|].
  destruct (absent_member_is_zero Example.strict Example.utc Example.today "g" "c"
              (Some "2024-06"%string) Example.db4 r Hin) as (H1 & H2 & _);
    [reflexivity|reflexivity|].
  split; [exact H1|exact H2].
Defined.

Lemma no_data_row parseRest toEpochMs today g c ymCurrent db r :
  let P := summaryPayload parseRest toEpochMs today g c ymCurrent db in
  totals_thisMonth P = 0 -> In r (rows P) ->
  pct (thisMonth r) = None /\ under50 (flags r) = false /\ under75 (flags r) = false.
Proof.
  intros P Hz Hin. unfold P in *. clear P.
  set (P := summaryPayload parseRest toEpochMs today g c ymCurrent db) in *.
  destruct (rows_of_summary _ _ _ _ _ _ _ _ Hin) as (m & _ & E).
  assert (Hz' : total (computeAttendance parseRest toEpochMs today g c (Some (ym P)) db) = 0)
    by exact Hz.
  rewrite E. fold P. unfold rowOf. cbn [thisMonth pct flags under50 under75].
  rewrite Hz'. repeat split.
Qed.

Lemma unflagged_lists parseRest toEpochMs today g c ymCurrent db :
  let P := summaryPayload parseRest toEpochMs today g c ymCurrent db in
  (forall r, In r (rows P) -> under50 (flags r) = false /\ under75 (flags r) = false) ->
  below50 P = [] /\ below75 P = [].
Proof.
  intros P Hrows. unfold P, summaryPayload. cbn [below50 below75]. fold (rows P).
  split; (rewrite filter_none; [reflexivity|]); intros r Hr;
    destruct (Hrows r Hr) as (H50 & H75); rewrite ?H50, ?H75; reflexivity.
Qed.

(** X10. In a month without any snapshot nobody is flagged: every
    percentage is null, both flags are false in every row and both name
    lists are empty. *)
Theorem no_data_no_flags parseRest toEpochMs today g c ymCurrent db :
  let P := summaryPayload parseRest toEpochMs today g c ymCurrent db in
  totals_thisMonth P = 0 ->
  (forall r, In r (rows P) ->
     pct (thisMonth r) = None /\ under50 (flags r) = false /\ under75 (flags r) = false) /\
  below50 P = [] /\ below75 P = [].
Proof.
  intros P Hz. split.
  - intros r Hin. exact (no_data_row parseRest toEpochMs today g c ymCurrent db r Hz Hin).
  - apply unflagged_lists. intros r Hin.
    destruct (no_data_row parseRest toEpochMs today g c ymCurrent db r Hz Hin) as (_ & H).
    exact H.
Qed.

Lemma no_data_no_flags_witness :
  totals_thisMonth (summaryPayload Example.strict Example.utc Example.today "g" "c"
                      (Some "2024-05"%string) Example.db4) = 0 /\
  below50 (summaryPayload Example.strict Example.utc Example.today "g" "c"
             (Some "2024-05"%string) Example.db4) = [].
Proof.
  assert (Hz : totals_thisMonth (summaryPayload Example.strict Example.utc Example.today
                 "g" "c" (Some "2024-05"%string) Example.db4) = 0)
    by (vm_compute; reflexivity).
  split; [exact Hz|].
  destruct (no_data_no_flags Example.strict Example.utc Example.today "g" "c"
              (Some "2024-05"%string) Example.db4 Hz) as (_ & H & _).
  exact H.
Defined.

(** X11. The red flag implies the yellow one, so the two name lists are
    the rows below 0.5 and the remaining rows below 0.75; a member present
    in every snapshot of a month with data carries no flag. *)
Theorem flags_nest parseRest toEpochMs today g c ymCurrent db r :
  let P := summaryPayload parseRest toEpochMs today g c ymCurrent db in
  In r (rows P) ->
  (under50 (flags r) = true -> under75 (flags r) = true) /\
  (0 < cell_total (thisMonth r) -> present (thisMonth r) = cell_total (thisMonth r) ->
   under50 (flags r) = false /\ under75 (flags r) = false).
Proof.
  intros P Hin. destruct (pct_cells _ _ _ _ _ _ _ _ Hin) as [(_ & _ & Hpct & _) _].
  destruct (rows_of_summary _ _ _ _ _ _ _ _ Hin) as (m & _ & E).
  assert (Ef : flags r = mkFlags (isUnder (1 # 2) (pct (thisMonth r)))
                                 (isUnder (3 # 4) (pct (thisMonth r))))
    by (rewrite E; reflexivity).
  rewrite Ef. cbn [under50 under75]. split.
  - rewrite !isUnder_spec. intros (q & Eq & Hq). exists q. split; [exact Eq|].
    eapply Qlt_trans; [exact Hq|reflexivity].
  - intros Ht Hp. rewrite (Hpct Ht), Hp. cbn [isUnder]. unfold Qltb.
    assert (H1 : (1 <= cell_total (thisMonth r) # Z.to_pos (cell_total (thisMonth r)))%Q).
    { unfold Qle. cbn. rewrite Z2Pos.id by exact Ht. lia. }
    split; apply negb_false_iff, Qle_bool_iff; (eapply Qle_trans; [|exact H1]);
      unfold Qle; cbn; lia.
Qed.

Lemma flags_nest_witness :
  exists r,
    In r (rows (summaryPayload Example.strict Example.utc Example.today "g" "c" None
                  Example.db4)) /\
    name r = "bob"%string /\ under50 (flags r) = false /\ under75 (flags r) = false.
Proof.
  set (r := mkRow "u2" "bob" "Raider" (mkCell "2024-07" 3 3 (Some (3 # 3)%Q))
              (mkCell "2024-06" 0 1 (Some (0 # 1)%Q)) (mkFlags false false)).
  assert (Hin : In r (rows (summaryPayload Example.strict Example.utc Example.today
                              "g" "c" None Example.db4))).
  { vm_compute. left. reflexivity. }
  exists r. split; [exact Hin|]. split; [reflexivity|].
  destruct (flags_nest Example.strict Example.utc Example.today "g" "c" None Example.db4 r Hin)
    as [_ H].
  apply H; reflexivity.
Defined.

(** ** Further properties of the month arithmetic *)

Lemma monthBounds_ymString parseRest toEpochMs today y mm :
  0 <= y <= 9999 -> 0 <= mm <= 99 ->
  monthBounds parseRest toEpochMs today (Some (ymString y mm))
  = let d := Calendar.newDate y (mm - 1) in
    mkBounds (Some (toEpochMs (mkDate (d_y d) (d_M d) 1) 0))
             (Some (toEpochMs (mkDate (d_y d) (d_M d)
                                 (Calendar.daysInMonth (d_y d) (d_M d))) 86399999)).
Proof.
  intros Hy Hm. unfold monthBounds, baseOf.
  rewrite ymString_truthy, dayjs_ymString by lia. reflexivity.
Qed.

Lemma newDate_regular y mm :
  100 <= y -> 1 <= mm <= 12 -> Calendar.newDate y (mm - 1) = mkDate y (mm - 1) 1.
Proof.
  intros Hy Hm. unfold Calendar.newDate, Calendar.fullYear.
  replace ((0 <=? y) && (y <=? 99)) with false by lia.
  rewrite Z.div_small, Z.mod_small by lia. f_equal. lia.
Qed.

Lemma daysInMonth_range y m : 28 <= Calendar.daysInMonth y m <= 31.
Proof.
  unfold Calendar.daysInMonth.
  destruct (m =? 1); [destruct (Calendar.isLeap y); lia|].
  destruct ((m =? 3) || (m =? 5) || (m =? 8) || (m =? 10)); lia.
Qed.

Lemma monthBounds_regular parseRest toEpochMs today y m :
  100 <= y <= 9999 -> 1 <= m <= 12 ->
  monthBounds parseRest toEpochMs today (Some (ymString y m))
  = mkBounds (Some (toEpochMs (mkDate y (m - 1) 1) 0))
             (Some (toEpochMs (mkDate y (m - 1) (Calendar.daysInMonth y (m - 1)))
                              86399999)).
Proof.
  intros Hy Hm. rewrite monthBounds_ymString by lia. cbv zeta.
  rewrite newDate_regular by lia. reflexivity.
Qed.

(** X12. For a month text YYYY-MM with a year from 0100 and a month from
    01 to 12, the bounds run from the first instant of the first day of
    that month to the last millisecond of its last day, local time; the
    last day is the 28th to the 31st, the 29th for February exactly in leap
    years. *)
Theorem month_bounds_cover_month parseRest toEpochMs today y m :
  100 <= y <= 9999 -> 1 <= m <= 12 ->
  monthBounds parseRest toEpochMs today (Some (ymString y m))
  = mkBounds (Some (toEpochMs (mkDate y (m - 1) 1) 0))
             (Some (toEpochMs (mkDate y (m - 1) (Calendar.daysInMonth y (m - 1)))
                              86399999)) /\
  28 <= Calendar.daysInMonth y (m - 1) <= 31 /\
  (m = 2 ->
   Calendar.daysInMonth y (m - 1)
   = if ((y mod 4 =? 0) && negb (y mod 100 =? 0)) || (y mod 400 =? 0) then 29 else 28).
Proof.
  intros Hy Hm. split; [|split].
  - apply monthBounds_regular; lia.
  - apply daysInMonth_range.
  - intros ->. reflexivity.
Qed.

Lemma month_bounds_cover_month_witness :
  monthBounds Example.strict Example.utc Example.today (Some (ymString 2024 2))
  = mkBounds (Some 1706745600000) (Some 1709251199999) /\
  ymString 2024 2 = "2024-02"%string.
Proof.
  destruct (month_bounds_cover_month Example.strict Example.utc Example.today 2024 2)
    as (H & _); [lia|lia|].
  split; [rewrite H; vm_compute; reflexivity|vm_compute; reflexivity].
Defined.

(** X13. A month number outside 01 to 12 is not refused: 00 is read as
    December of the year before and 13 to 24 as the months of the year
    after, while the report keeps the text it was given. *)
Theorem month_number_rolls_over parseRest toEpochMs today y mm :
  101 <= y <= 9998 ->
  (mm = 0 ->
   monthBounds parseRest toEpochMs today (Some (ymString y mm))
   = monthBounds parseRest toEpochMs today (Some (ymString (y - 1) 12))) /\
  (13 <= mm <= 24 ->
   monthBounds parseRest toEpochMs today (Some (ymString y mm))
   = monthBounds parseRest toEpochMs today (Some (ymString (y + 1) (mm - 12)))) /\
  (forall g c db,
     ym (summaryPayload parseRest toEpochMs today g c (Some (ymString y mm)) db)
     = ymString y mm).
Proof.
  intros Hy. split; [|split].
  - intros ->. rewrite !monthBounds_ymString by lia. cbv zeta.
    rewrite (newDate_regular (y - 1) 12) by lia.
    unfold Calendar.newDate, Calendar.fullYear.
    replace ((0 <=? y) && (y <=? 99)) with false by lia.
    change ((0 - 1) / 12) with (-1). change ((0 - 1) mod 12) with 11.
    change (12 - 1) with 11. replace (y + -1) with (y - 1) by lia. reflexivity.
  - intros Hm. rewrite !monthBounds_ymString by lia. cbv zeta.
    rewrite (newDate_regular (y + 1) (mm - 12)) by lia.
    unfold Calendar.newDate, Calendar.fullYear.
    replace ((0 <=? y) && (y <=? 99)) with false by lia.
    replace ((mm - 1) / 12) with 1 by (apply Z.div_unique with (mm - 13); lia).
    replace ((mm - 1) mod 12) with (mm - 12 - 1)
      by (apply Z.mod_unique with 1; lia).
    reflexivity.
  - intros g c db. unfold summaryPayload. cbn [ym]. unfold JS.orElse.
    pose proof (ymString_truthy y mm) as Ht. unfold JS.truthy in Ht.
    apply negb_true_iff in Ht. now rewrite Ht.
Qed.

Lemma month_number_rolls_over_witness :
  monthBounds Example.strict Example.utc Example.today (Some (ymString 2024 13))
  = monthBounds Example.strict Example.utc Example.today (Some (ymString 2025 1)) /\
  ymString 2024 13 = "2024-13"%string /\ ymString 2025 1 = "2025-01"%string.
Proof.
  destruct (month_number_rolls_over Example.strict Example.utc Example.today 2024 13)
    as (_ & H & _); [lia|].
  split; [apply H; lia|]. split; vm_compute; reflexivity.
Defined.

Lemma formatYM_subtractMonth parseRest y m :
  100 <= y <= 9999 -> 1 <= m <= 12 ->
  formatYM (subtractMonth (dayjs parseRest (ymString y m +:+ "-01")))
  = ymString (fst (monthBefore y m)) (snd (monthBefore y m)).
Proof.
  intros Hy Hm. rewrite dayjs_ymString, newDate_regular by lia.
  unfold subtractMonth, Calendar.setMonth, monthBefore, formatYM, ymString.
  cbn [d_y d_M d_D]. destruct (Z.eqb_spec m 1) as [->|Hne]; cbn [fst snd].
  - change ((1 - 1 - 1) / 12) with (-1). change ((1 - 1 - 1) mod 12) with 11.
    replace (y + -1) with (y - 1) by lia. reflexivity.
  - rewrite Z.div_small, Z.mod_small by lia.
    replace (y + 0) with y by lia. replace (m - 1 - 1 + 1) with (m - 1) by lia.
    reflexivity.
Qed.

(** X14. For a month text YYYY-MM with a year from 0101 and a month from
    01 to 12, the report names the month before as [ymPrev] and counts
    this month's total over that calendar month and last month's total
    over the calendar month before it. *)
Theorem report_months parseRest toEpochMs today g c db y m :
  101 <= y <= 9999 -> 1 <= m <= 12 ->
  let P := summaryPayload parseRest toEpochMs today g c (Some (ymString y m)) db in
  let y' := fst (monthBefore y m) in
  let m' := snd (monthBefore y m) in
  ym P = ymString y m /\ ymPrev P = ymString y' m' /\
  totals_thisMonth P
  = qTotalSnapshotsInRange
      (Some (toEpochMs (mkDate y (m - 1) 1) 0))
      (Some (toEpochMs (mkDate y (m - 1) (Calendar.daysInMonth y (m - 1))) 86399999))
      c g db /\
  totals_lastMonth P
  = qTotalSnapshotsInRange
      (Some (toEpochMs (mkDate y' (m' - 1) 1) 0))
      (Some (toEpochMs (mkDate y' (m' - 1) (Calendar.daysInMonth y' (m' - 1))) 86399999))
      c g db.
Proof.
  intros Hy Hm P y' m'.
  assert (Eym : ym P = ymString y m).
  { unfold P, summaryPayload. cbn [ym]. unfold JS.orElse.
    pose proof (ymString_truthy y m) as Ht. unfold JS.truthy in Ht.
    apply negb_true_iff in Ht. now rewrite Ht. }
  assert (Eprev : ymPrev P = ymString y' m').
  { change (ymPrev P) with (lastMonthYM parseRest today (Some (ym P))).
    rewrite Eym. unfold lastMonthYM, baseOf. rewrite ymString_truthy.
    apply formatYM_subtractMonth; lia. }
  assert (Hb : 100 <= y' <= 9999 /\ 1 <= m' <= 12).
  { unfold y', m', monthBefore. destruct (m =? 1) eqn:E; cbn [fst snd]; lia. }
  split; [exact Eym|]. split; [exact Eprev|]. split.
  - change (totals_thisMonth P)
      with (total (computeAttendance parseRest toEpochMs today g c (Some (ym P)) db)).
    rewrite Eym. unfold computeAttendance. cbn [total].
    rewrite monthBounds_regular by lia. reflexivity.
  - change (totals_lastMonth P)
      with (total (computeAttendance parseRest toEpochMs today g c (Some (ymPrev P)) db)).
    rewrite Eprev. unfold computeAttendance. cbn [total].
    rewrite monthBounds_regular by lia. reflexivity.
Qed.

Lemma report_months_witness :
  ymPrev (summaryPayload Example.strict Example.utc Example.today "g" "c"
            (Some (ymString 2024 1)) Example.db4) = ymString 2023 12 /\
  totals_lastMonth (summaryPayload Example.strict Example.utc Example.today "g" "c"
                      (Some (ymString 2024 7)) Example.db4) = 1.
Proof.
  destruct (report_months Example.strict Example.utc Example.today "g" "c" Example.db4 2024 1)
    as (_ & H1 & _); [lia|lia|].
  destruct (report_months Example.strict Example.utc Example.today "g" "c" Example.db4 2024 7)
    as (_ & _ & _ & H2); [lia|lia|].
  split; [exact H1|]. rewrite H2. vm_compute. reflexivity.
Defined.

(** ** A month text dayjs cannot read *)

Lemma between_none_l hi x : between None hi x = false.
Proof. reflexivity. Qed.

Lemma joined_invalid c g db : joined None None c g db = [].
Proof.
  unfold joined. induction (presence db) as [|p P IH]; [reflexivity|].
  cbn [flat_map]. rewrite IH, app_nil_r.
  rewrite filter_none; [reflexivity|]. intros s _. unfold inRange.
  rewrite between_none_l. now rewrite andb_false_r.
Qed.

Lemma total_invalid c g db : qTotalSnapshotsInRange None None c g db = 0.
Proof.
  unfold qTotalSnapshotsInRange. rewrite filter_none; [reflexivity|].
  intros s _. reflexivity.
Qed.

(** X15. When dayjs reads the month text, with "-01" appended, as an
    invalid date, nothing is refused: the report carries the text as [ym]
    and "Invalid Date" as [ymPrev]; this month's total is 0, every row has
    a null percentage for this month and no flag, and both name lists are
    empty.  Last month's total is counted over the month the host's dayjs
    makes of the text "Invalid Date-01"; it is 0, with null percentages,
    when the host reads that text as an invalid date too. *)
Theorem unreadable_month_has_no_data parseRest toEpochMs today g c db s :
  s <> ""%string ->
  dayjs parseRest (s +:+ "-01") = InvalidDate ->
  let P := summaryPayload parseRest toEpochMs today g c (Some s) db in
  let prev := parseRest "Invalid Date-01"%string in
  ym P = s /\ ymPrev P = "Invalid Date"%string /\
  totals_thisMonth P = 0 /\
  (forall r, In r (rows P) ->
     pct (thisMonth r) = None /\ under50 (flags r) = false /\ under75 (flags r) = false) /\
  below50 P = [] /\ below75 P = [] /\
  totals_lastMonth P
  = qTotalSnapshotsInRange (startOfMonthMs toEpochMs prev) (endOfMonthMs toEpochMs prev)
      c g db /\
  (prev = InvalidDate ->
   totals_lastMonth P = 0 /\ forall r, In r (rows P) -> pct (lastMonth r) = None).
Proof.
  intros Hs Hd P prev.
  assert (Ht : JS.truthy (Some s) = true)
    by (unfold JS.truthy; apply negb_true_iff, String.eqb_neq, Hs).
  assert (Eym : ym P = s).
  { unfold P, summaryPayload. cbn [ym]. unfold JS.orElse.
    unfold JS.truthy in Ht. apply negb_true_iff in Ht. now rewrite Ht. }
  assert (Eprev : ymPrev P = "Invalid Date"%string).
  { change (ymPrev P) with (lastMonthYM parseRest today (Some (ym P))).
    rewrite Eym. unfold lastMonthYM, baseOf. rewrite Ht, Hd. reflexivity. }
  assert (Bthis : monthBounds parseRest toEpochMs today (Some (ym P)) = mkBounds None None).
  { rewrite Eym. unfold monthBounds, baseOf. rewrite Ht, Hd. reflexivity. }
  assert (Blast : monthBounds parseRest toEpochMs today (Some (ymPrev P))
                  = mkBounds (startOfMonthMs toEpochMs prev) (endOfMonthMs toEpochMs prev)).
  { rewrite Eprev. reflexivity. }
  assert (T1 : totals_thisMonth P = 0).
  { change (totals_thisMonth P)
      with (total (computeAttendance parseRest toEpochMs today g c (Some (ym P)) db)).
    unfold computeAttendance. cbn [total]. rewrite Bthis. apply total_invalid. }
  assert (T2 : totals_lastMonth P
               = qTotalSnapshotsInRange (startOfMonthMs toEpochMs prev)
                   (endOfMonthMs toEpochMs prev) c g db).
  { change (totals_lastMonth P)
      with (total (computeAttendance parseRest toEpochMs today g c (Some (ymPrev P)) db)).
    unfold computeAttendance. cbn [total]. rewrite Blast. reflexivity. }
  split; [exact Eym|]. split; [exact Eprev|]. split; [exact T1|].
  split.
  { intros r Hin. exact (no_data_row parseRest toEpochMs today g c (Some s) db r T1 Hin). }
  assert (Hl : below50 P = [] /\ below75 P = []).
  { apply unflagged_lists. intros r Hin.
    destruct (no_data_row parseRest toEpochMs today g c (Some s) db r T1 Hin) as (_ & H).
    exact H. }
  split; [apply Hl|]. split; [apply Hl|]. split; [exact T2|].
  intros Hp. assert (T0 : totals_lastMonth P = 0).
  { rewrite T2, Hp. apply total_invalid. }
  split; [exact T0|]. intros r Hin.
  destruct (pct_cells _ _ _ _ _ _ _ _ Hin) as [_ (_ & _ & _ & N2 & _)].
  destruct (rows_of_summary _ _ _ _ _ _ _ _ Hin) as (m & _ & E). fold P in E.
  destruct (rowOf_fields (ym P) (ymPrev P)
              (computeAttendance parseRest toEpochMs today g c (Some (ym P)) db)
              (computeAttendance parseRest toEpochMs today g c (Some (ymPrev P)) db) m)
    as (_ & _ & _ & _ & _ & _ & El).
  rewrite <- E in El. apply N2. rewrite El. exact T0.
Qed.

Lemma unreadable_month_has_no_data_witness :
  ymPrev (summaryPayload Example.strict Example.utc Example.today "g" "c"
            (Some "2024-1x"%string) Example.db4) = "Invalid Date"%string /\
  totals_thisMonth (summaryPayload Example.strict Example.utc Example.today "g" "c"
                      (Some "2024-1x"%string) Example.db4) = 0 /\
  below50 (summaryPayload Example.strict Example.utc Example.today "g" "c"
             (Some "2024-1x"%string) Example.db4) = [].
Proof.
  destruct (unreadable_month_has_no_data Example.strict Example.utc Example.today
              "g" "c" Example.db4 "2024-1x"%string) as (_ & H1 & H2 & _ & H3 & _);
    [discriminate|reflexivity|].
  split; [exact H1|]. split; [exact H2|exact H3].
Defined.

(** ** Role requests and the report *)

Lemma setRowRole_key uid r x : sortKey (setRowRole uid r x) = sortKey x.
Proof. unfold setRowRole. now destruct (String.eqb (userId x) uid). Qed.

Lemma insertRow_map (h : Row -> Row) x l :
  (forall r, sortKey (h r) = sortKey r) ->
  insertRow (h x) (List.map h l) = List.map h (insertRow x l).
Proof.
  intros Hk. induction l as [|y l IH]; [reflexivity|].
  cbn [List.map insertRow].
  destruct (decide (byPctDesc (h x) (h y))) as [H|H], (decide (byPctDesc x y)) as [H'|H'].
  - reflexivity.
  - exfalso. apply H'. unfold byPctDesc in *. now rewrite !Hk in H.
  - exfalso. apply H. unfold byPctDesc in *. now rewrite !Hk.
  - cbn [List.map]. now rewrite IH.
Qed.

Lemma sortRows_map (h : Row -> Row) l :
  (forall r, sortKey (h r) = sortKey r) ->
  sortRows (List.map h l) = List.map h (sortRows l).
Proof.
  intros Hk. induction l as [|x l IH]; [reflexivity|].
  cbn [List.map sortRows foldr]. fold (sortRows (List.map h l)) (sortRows l).
  now rewrite IH, insertRow_map.
Qed.

Lemma summary_updateRole parseRest toEpochMs today g c ymCurrent r uid db :
  let P := summaryPayload parseRest toEpochMs today g c ymCurrent db in
  let P' := summaryPayload parseRest toEpochMs today g c ymCurrent (Sql.updateRole r uid db) in
  rows P' = List.map (setRowRole uid r) (rows P).
Proof.
  intros P P'. unfold P', P, summaryPayload. cbn [rows].
  rewrite <- sortRows_map by apply setRowRole_key. f_equal.
  unfold qMembers, Sql.updateRole. cbn [members]. rewrite !map_map.
  apply map_ext. intros m. unfold rowOf, setRowRole. cbn [userId user_id display_name role name
    thisMonth lastMonth flags].
  destruct (String.eqb (user_id m) uid); reflexivity.
Qed.

(** X16. A role request changes nobody's numbers: after it the report has
    the same rows in the same order with the same names, counts,
    percentages and flags, the same totals and the same name lists; only
    the role shown for the member may differ. *)
Theorem role_request_keeps_numbers parseRest toEpochMs today g c ymCurrent reqBody db :
  let P := summaryPayload parseRest toEpochMs today g c ymCurrent db in
  let P' := summaryPayload parseRest toEpochMs today g c ymCurrent
              (fst (postRole reqBody db)) in
  List.map numbersOf (rows P') = List.map numbersOf (rows P) /\
  ym P' = ym P /\ ymPrev P' = ymPrev P /\
  totals_thisMonth P' = totals_thisMonth P /\ totals_lastMonth P' = totals_lastMonth P /\
  below50 P' = below50 P /\ below75 P' = below75 P.
Proof.
  intros P P'. unfold P'. unfold postRole. case_match; cbn [fst]; [|repeat split].
  set (r := default ""%string (body_role (default (mkRoleBody None None) reqBody))).
  set (uid := default ""%string (body_userId (default (mkRoleBody None None) reqBody))).
  pose proof (summary_updateRole parseRest toEpochMs today g c ymCurrent r uid db) as Hrows.
  cbv zeta in Hrows. fold P in Hrows.
  assert (Hn : forall l, List.map numbersOf (List.map (setRowRole uid r) l) = List.map numbersOf l).
  { intros l. rewrite map_map. apply map_ext. intros x. unfold setRowRole, numbersOf.
    now destruct (String.eqb (userId x) uid). }
  assert (Hf : forall (f : Row -> bool) l,
             (forall x, f (setRowRole uid r x) = f x) ->
             List.map name (List.filter f (List.map (setRowRole uid r) l))
             = List.map name (List.filter f l)).
  { intros f l Hfx. induction l as [|x l IH]; [reflexivity|].
    cbn [List.map List.filter]. rewrite Hfx. destruct (f x); cbn [List.map]; rewrite IH; [|reflexivity].
    f_equal. unfold setRowRole. now destruct (String.eqb (userId x) uid). }
  split; [rewrite Hrows; apply Hn|]. split; [reflexivity|]. split; [reflexivity|].
  split; [reflexivity|]. split; [reflexivity|].
  split.
  - change (below50 (summaryPayload parseRest toEpochMs today g c ymCurrent (Sql.updateRole r uid db)))
      with (List.map name (List.filter (fun x => under50 (flags x))
              (rows (summaryPayload parseRest toEpochMs today g c ymCurrent (Sql.updateRole r uid db))))).
    rewrite Hrows, Hf; [reflexivity|].
    intros x. unfold setRowRole. now destruct (String.eqb (userId x) uid).
  - change (below75 (summaryPayload parseRest toEpochMs today g c ymCurrent (Sql.updateRole r uid db)))
      with (List.map name (List.filter (fun x => under75 (flags x) && negb (under50 (flags x)))
              (rows (summaryPayload parseRest toEpochMs today g c ymCurrent (Sql.updateRole r uid db))))).
    rewrite Hrows, Hf; [reflexivity|].
    intros x. unfold setRowRole. now destruct (String.eqb (userId x) uid).
Qed.

Lemma updateRole_twice r1 r2 uid db :
  Sql.updateRole r2 uid (Sql.updateRole r1 uid db) = Sql.updateRole r2 uid db.
Proof.
  unfold Sql.updateRole. cbn [members snapshots presence snapshots_seq]. f_equal.
  rewrite map_map. apply map_ext. intros m.
  destruct (String.eqb (user_id m) uid) eqn:E; cbn [user_id]; now rewrite E.
Qed.

(** X17. Of two accepted role requests for the same member the later one
    decides, so repeating a request changes nothing more; a refused request
    between them changes nothing. *)
Theorem role_last_request_wins uid r1 r2 bad db :
  uid <> ""%string -> isRole r1 = true -> isRole r2 = true ->
  status (snd (postRole bad db)) = 400 ->
  fst (postRole (Some (mkRoleBody (Some uid) (Some r2)))
         (fst (postRole bad
                 (fst (postRole (Some (mkRoleBody (Some uid) (Some r1))) db)))))
  = fst (postRole (Some (mkRoleBody (Some uid) (Some r2))) db) /\
  fst (postRole (Some (mkRoleBody (Some uid) (Some r1)))
         (fst (postRole (Some (mkRoleBody (Some uid) (Some r1))) db)))
  = fst (postRole (Some (mkRoleBody (Some uid) (Some r1))) db).
Proof.
  intros Hu H1 H2 Hbad.
  assert (Hok : forall r d, isRole r = true ->
            fst (postRole (Some (mkRoleBody (Some uid) (Some r))) d) = Sql.updateRole r uid d).
  { intros r d Hr. unfold postRole. cbn [default from_option id body_userId body_role].
    rewrite Hr. unfold JS.truthy.
    replace (String.eqb uid "") with false by (symmetry; now apply String.eqb_neq).
    replace (String.eqb r "") with false.
    - reflexivity.
    - symmetry. apply String.eqb_neq. intros ->. discriminate Hr. }
  assert (Hrej : forall d, fst (postRole bad d) = d).
  { intros d. unfold postRole in *. destruct (_ && _ && _); [discriminate Hbad|reflexivity]. }
  rewrite !Hok by assumption. rewrite Hrej. split; apply updateRole_twice.
Qed.

Lemma role_last_request_wins_witness :
  option_map role
    (memberRow "u2"
       (fst (postRole (Some (mkRoleBody (Some "u2"%string) (Some "Raider"%string)))
          (fst (postRole (Some (mkRoleBody (Some "u2"%string) (Some "Scout"%string)))
             (fst (postRole (Some (mkRoleBody (Some "u2"%string) (Some "Reserve"%string)))
                     Example.db4))))))) = Some "Raider"%string.
Proof.
  destruct (role_last_request_wins "u2"%string "Reserve"%string "Raider"%string
              (Some (mkRoleBody (Some "u2"%string) (Some "Scout"%string))) Example.db4)
    as [H _]; [discriminate|reflexivity|reflexivity|reflexivity|].
  rewrite H. vm_compute. reflexivity.
Defined.

(** ** White space around the month parameter *)

Lemma trimEnd_head c s :
  JS.isSpace c = false -> exists r, JS.trimEnd (String c s) = String c r.
Proof.
  intros Hc. cbn [JS.trimEnd]. destruct (JS.trimEnd s); rewrite ?Hc; eauto.
Qed.

Lemma trimEnd_cons c s :
  JS.trimEnd (String c s)
  = match JS.trimEnd s with
    | EmptyString => if JS.isSpace c then EmptyString else String c EmptyString
    | String d r => String c (String d r)
    end.
Proof. reflexivity. Qed.

Lemma trimEnd_idem s : JS.trimEnd (JS.trimEnd s) = JS.trimEnd s.
Proof.
  induction s as [|c s IH]; [reflexivity|].
  rewrite trimEnd_cons. destruct (JS.trimEnd s) as [|d r] eqn:E.
  - destruct (JS.isSpace c) eqn:Hc; [reflexivity|]. rewrite trimEnd_cons.
    cbn [JS.trimEnd]. now rewrite Hc.
  - rewrite trimEnd_cons, IH. reflexivity.
Qed.

Lemma trimStart_head s :
  JS.trimStart s = EmptyString \/
  exists c r, JS.trimStart s = String c r /\ JS.isSpace c = false.
Proof.
  induction s as [|c s IH]; [now left|].
  cbn [JS.trimStart]. destruct (JS.isSpace c) eqn:Hc; [exact IH|]. right. eauto.
Qed.

Lemma trim_idem s : JS.trim (JS.trim s) = JS.trim s.
Proof.
  unfold JS.trim. destruct (trimStart_head s) as [E|(c & r & E & Hc)].
  - rewrite E. reflexivity.
  - rewrite E. destruct (trimEnd_head c r Hc) as (r' & E').
    rewrite E'. cbn [JS.trimStart]. rewrite Hc, <- E'. apply trimEnd_idem.
Qed.

(** X18. The summary request ignores white space around the month: a
    value and its trimmed form get the same answer, and the answer is
    always a 200. *)
Theorem summary_ignores_surrounding_space parseRest toEpochMs today g c db s :
  getSummary parseRest toEpochMs today g c (Some s) db
  = getSummary parseRest toEpochMs today g c (Some (JS.trim s)) db /\
  forall month, status (getSummary parseRest toEpochMs today g c month db) = 200.
Proof.
  split; [|reflexivity].
  unfold getSummary. rewrite !orElse_empty. cbn [default from_option id].
  now rewrite trim_idem.
Qed.

(** ** Percentages lie between 0 and 1 *)

Lemma pctOf_range p t q :
  0 <= p <= t -> pctOf p t = Some q -> (0 <= q)%Q /\ (q <= 1)%Q.
Proof.
  unfold pctOf. destruct (Z.eqb_spec t 0) as [|Ht]; [discriminate|].
  intros Hp [= <-]. unfold Qle. cbn. rewrite Z2Pos.id by lia. lia.
Qed.

(** X19. In every store the program can reach, every percentage of every
    report, for this month and for the last, lies between 0 and 1. *)
Theorem pct_between_0_and_1 parseRest toEpochMs today g c ymCurrent db r q :
  reachable db ->
  In r (rows (summaryPayload parseRest toEpochMs today g c ymCurrent db)) ->
  pct (thisMonth r) = Some q \/ pct (lastMonth r) = Some q ->
  (0 <= q)%Q /\ (q <= 1)%Q.
Proof.
  intros Hr Hin Hq. apply reachable_schemaOk in Hr. destruct Hr as [_ _ Hp _].
  destruct (rows_of_summary _ _ _ _ _ _ _ _ Hin) as (m & _ & E).
  rewrite E in Hq. unfold rowOf, computeAttendance in Hq.
  cbn [thisMonth lastMonth pct total presentMap] in Hq.
  rewrite !presentMap_lookup in Hq.
  destruct Hq as [Hq|Hq]; (eapply pctOf_range; [|exact Hq]);
    (split; [apply countOf_nonneg|now apply countOf_le_total]).
Qed.

Lemma pct_between_0_and_1_witness :
  exists r q,
    In r (rows (summaryPayload Example.strict Example.utc Example.today "g" "c" None
                  Example.db4)) /\
    pct (thisMonth r) = Some q /\ (0 <= q)%Q /\ (q <= 1)%Q.
Proof.
  set (r := mkRow "u3" "Cy" "Raider" (mkCell "2024-07" 1 3 (Some (1 # 3)%Q))
              (mkCell "2024-06" 1 1 (Some (1 # 1)%Q)) (mkFlags true true)).
  assert (Hin : In r (rows (summaryPayload Example.strict Example.utc Example.today
                              "g" "c" None Example.db4))).
  { vm_compute. right; left. reflexivity. }
  assert (H : reachable Example.db4).
  { unfold Example.db4. apply reachable_runCycles. exact reach_empty. }
  exists r, (1 # 3)%Q. split; [exact Hin|]. split; [reflexivity|].
  apply (pct_between_0_and_1 Example.strict Example.utc Example.today "g" "c" None
           Example.db4 r (1 # 3)%Q H Hin). left. reflexivity.
Defined.
